(** * Findora: a shallow embedding of [ai_studio_code.ts]

    The application is one React component, [App], whose state is seven
    [useState] cells.  Every handler of the component only writes the cells
    through their setters (and [handleVoiceSearch] and the render read them),
    so a handler is embedded as a function from the component state to the
    component state, and the asynchronous [fetchProducts] as the part that
    runs before its [await] followed by the part that runs after it.

    JavaScript strings are sequences of UTF-16 code units; [length],
    [substring], [trim] and a regular expression without the [u] flag all
    work on code units, so a string is a list of code units here. *)

From Stdlib Require Import String Ascii List Bool NArith ZArith Lia.
Import ListNotations.

Local Open Scope N_scope.

(** ** Strings *)

Module JsString.

Definition jsstring := list N.

(** The code units of an ASCII literal. *)
Definition js (s : string) : jsstring :=
  map N_of_ascii (list_ascii_of_string s).

Definition eqb (a b : jsstring) : bool :=
  if list_eq_dec N.eq_dec a b then true else false.

(** A string is truthy when it is not empty. *)
Definition truthy (s : jsstring) : bool :=
  match s with
  | [] => false
  | _ :: _ => true
  end.

(** [WhiteSpace] and [LineTerminator] of ECMAScript, the code units that
    [String.prototype.trim] strips. *)
Definition is_white_space (c : N) : bool :=
  (c =? 9) || (c =? 10) || (c =? 11) || (c =? 12) || (c =? 13) || (c =? 32)
  || (c =? 160) || (c =? 5760)
  || ((8192 <=? c) && (c <=? 8202))
  || (c =? 8232) || (c =? 8233) || (c =? 8239) || (c =? 8287)
  || (c =? 12288) || (c =? 65279).

Fixpoint trimStart (s : jsstring) : jsstring :=
  match s with
  | c :: s' => if is_white_space c then trimStart s' else s
  | [] => []
  end.

Definition trimEnd (s : jsstring) : jsstring :=
  rev (trimStart (rev s)).

Definition trim (s : jsstring) : jsstring :=
  trimEnd (trimStart s).

(** [s.substring(0, n)] for [0 <= n]. *)
Definition substring0 (n : nat) (s : jsstring) : jsstring :=
  firstn n s.

(** [strip p s] is the rest of [s] after the literal [p], when [s] starts
    with [p]. *)
Fixpoint strip (p s : jsstring) : option jsstring :=
  match p, s with
  | [], _ => Some s
  | a :: p', b :: s' => if a =? b then strip p' s' else None
  | _ :: _, [] => None
  end.

End JsString.
Import JsString.

(** ** The regular expression of [fetchProducts]

    [/```json\n([\s\S]*?)\n```/]: the literal opening fence, a lazy group of
    arbitrary code units, the literal closing fence.  [String.prototype.match]
    tries the start positions from left to right, and at one start position
    the lazy group tries its lengths from the shortest on. *)

Module Fence.

Definition fence_open : jsstring := js "```json" ++ [10].
Definition fence_close : jsstring := 10 :: js "```".

(** The lazy group followed by the closing fence, at the position [s]:
    the captured group. *)
Fixpoint lazy_group (s : jsstring) : option jsstring :=
  match strip fence_close s with
  | Some _ => Some []
  | None =>
      match s with
      | [] => None
      | c :: s' => option_map (cons c) (lazy_group s')
      end
  end.

(** The whole pattern anchored at the position [s]. *)
Definition match_here (s : jsstring) : option jsstring :=
  match strip fence_open s with
  | Some rest => lazy_group rest
  | None => None
  end.

(** [s.match(re)]: [Some g] is a match whose group 1 is [g], [None] is
    [null]. *)
Fixpoint re_match (s : jsstring) : option jsstring :=
  match match_here s with
  | Some g => Some g
  | None =>
      match s with
      | [] => None
      | _ :: s' => re_match s'
      end
  end.

(** Lines 69-73 of [fetchProducts]: the text handed to [JSON.parse]. *)
Definition extract_payload (text : jsstring) : jsstring :=
  let jsonText := trim text in
  match re_match jsonText with
  | Some g => if truthy g then g else jsonText
  | None => jsonText
  end.

End Fence.
Import Fence.


(** ** Values produced by [JSON.parse] *)

Module Json.

(** A JSON number is a double: finite ([m * 2^e]) or, for a literal beyond the
    range such as [1e999], infinite.  Only its being zero is ever observed. *)
Inductive JsNumber :=
| Finite (m e : Z)
| Infinite (negative : bool).

Definition is_zero (n : JsNumber) : bool :=
  match n with
  | Finite m _ => (m =? 0)%Z
  | Infinite _ => false
  end.

#[local] Set Warnings "-register-all".

Inductive JsValue :=
| JNull
| JBool (b : bool)
| JNum (n : JsNumber)
| JStr (s : jsstring)
| JArr (items : list JsValue)
| JObj (fields : list (jsstring * JsValue)).

(** Evaluating an expression either yields a value or throws. *)
Inductive Completion (A : Type) :=
| Normal (a : A)
| Throw.
Arguments Normal {A} a.
Arguments Throw {A}.

Fixpoint own_property (k : jsstring) (fields : list (jsstring * JsValue))
  : option JsValue :=
  match fields with
  | [] => None
  | (k', v) :: rest => if JsString.eqb k k' then Some v else own_property k rest
  end.

(** [v.products]: [None] is [undefined].  Reading a property of [null]
    throws a TypeError; arrays, strings, numbers and booleans have no such
    property. *)
Definition get_products (v : JsValue) : Completion (option JsValue) :=
  match v with
  | JNull => Throw
  | JObj fields => Normal (own_property (js "products") fields)
  | _ => Normal None
  end.

(** [v.length]. *)
Definition get_length (v : JsValue) : Completion (option JsValue) :=
  match v with
  | JNull => Throw
  | JArr items => Normal (Some (JNum (Finite (Z.of_nat (length items)) 0)))
  | JStr s => Normal (Some (JNum (Finite (Z.of_nat (length s)) 0)))
  | JObj fields => Normal (own_property (js "length") fields)
  | _ => Normal None
  end.

(** [ToBoolean]. *)
Definition truthy (v : option JsValue) : bool :=
  match v with
  | None => false
  | Some JNull => false
  | Some (JBool b) => b
  | Some (JNum n) => negb (is_zero n)
  | Some (JStr s) => JsString.truthy s
  | Some (JArr _) => true
  | Some (JObj _) => true
  end.

(** [v || []]. *)
Definition or_empty_array (v : option JsValue) : JsValue :=
  match v with
  | Some x => if truthy v then x else JArr []
  | None => JArr []
  end.

(** [v === 0]. *)
Definition strictly_zero (v : option JsValue) : bool :=
  match v with
  | Some (JNum n) => is_zero n
  | _ => false
  end.

Definition positive (n : JsNumber) : bool :=
  match n with
  | Finite m _ => (0 <? m)%Z
  | Infinite negative => negb negative
  end.

(** What React accepts as a child of an element: anything but a plain
    object, which makes the render throw; an array is a list of children. *)
Fixpoint valid_child (v : JsValue) : bool :=
  match v with
  | JObj _ => false
  | JArr items => forallb valid_child items
  | _ => true
  end.

(** The shape the interface [Product] declares: an object whose five
    properties are strings. *)
Definition is_string (v : option JsValue) : bool :=
  match v with
  | Some (JStr _) => true
  | _ => false
  end.

Definition is_product (v : JsValue) : bool :=
  match v with
  | JObj fields =>
      is_string (own_property (js "name") fields)
      && is_string (own_property (js "description") fields)
      && is_string (own_property (js "price") fields)
      && is_string (own_property (js "imageUrl") fields)
      && is_string (own_property (js "productUrl") fields)
  | _ => false
  end.

End Json.
Import Json.

(** ** The response of [ai.models.generateContent] *)

Module Genai.

Record Web := { web_uri : option jsstring; web_title : option jsstring }.
Record GroundingChunk := { web : option Web }.
Record GroundingMetadata := { groundingChunks : option (list GroundingChunk) }.
Record Candidate := { groundingMetadata : option GroundingMetadata }.
Record GenerateContentResponse := {
  candidates : option (list Candidate);
  text : option jsstring
}.

(** The awaited promise is fulfilled with a response or rejected. *)
Inductive Outcome :=
| Fulfilled (response : GenerateContentResponse)
| Rejected.

(** What is sent: the prompt is a fixed template around [searchQuery]. *)
Record Request := { searchQuery : jsstring }.

End Genai.
Import Genai.

(** ** [Map], as far as line 65 uses it: insertion order is kept, and
    setting a key that is present replaces its value in place. *)

Module JsMap.

Section WithValue.
Context {V : Type}.

Fixpoint set (k : jsstring) (v : V) (m : list (jsstring * V))
  : list (jsstring * V) :=
  match m with
  | [] => [(k, v)]
  | (k', v') :: m' =>
      if JsString.eqb k k' then (k', v) :: m' else (k', v') :: set k v m'
  end.

Definition of_entries (entries : list (jsstring * V)) : list (jsstring * V) :=
  fold_left (fun m e => set (fst e) (snd e) m) entries [].

Definition keys (m : list (jsstring * V)) : list jsstring := map fst m.

Fixpoint get (k : jsstring) (m : list (jsstring * V)) : option V :=
  match m with
  | [] => None
  | (k', v) :: m' => if JsString.eqb k k' then Some v else get k m'
  end.

Definition has (k : jsstring) (m : list (jsstring * V)) : bool :=
  existsb (JsString.eqb k) (keys m).

Definition values (m : list (jsstring * V)) : list V := map snd m.

End WithValue.

End JsMap.

(** ** The component [App] *)

Module App.

Record Source := { uri : jsstring; title : jsstring }.

(** The seven [useState] cells.  [products] is declared [Product[]], but
    what [setProducts] receives on line 77 comes out of [JSON.parse], which is
    typed [any]: at run time the cell holds a JSON value. *)
Record State := {
  query : jsstring;
  products : JsValue;
  sources : list Source;
  isLoading : bool;
  isListening : bool;
  error : option jsstring;
  searched : bool
}.

Definition initial : State :=
  {| query := []; products := JArr []; sources := []; isLoading := false;
     isListening := false; error := None; searched := false |}.

Definition setQuery (v : jsstring) (st : State) : State :=
  {| query := v; products := products st; sources := sources st;
     isLoading := isLoading st; isListening := isListening st;
     error := error st; searched := searched st |}.

Definition setProducts (v : JsValue) (st : State) : State :=
  {| query := query st; products := v; sources := sources st;
     isLoading := isLoading st; isListening := isListening st;
     error := error st; searched := searched st |}.

Definition setSources (v : list Source) (st : State) : State :=
  {| query := query st; products := products st; sources := v;
     isLoading := isLoading st; isListening := isListening st;
     error := error st; searched := searched st |}.

Definition setIsLoading (v : bool) (st : State) : State :=
  {| query := query st; products := products st; sources := sources st;
     isLoading := v; isListening := isListening st;
     error := error st; searched := searched st |}.

Definition setIsListening (v : bool) (st : State) : State :=
  {| query := query st; products := products st; sources := sources st;
     isLoading := isLoading st; isListening := v;
     error := error st; searched := searched st |}.

Definition setError (v : option jsstring) (st : State) : State :=
  {| query := query st; products := products st; sources := sources st;
     isLoading := isLoading st; isListening := isListening st;
     error := v; searched := searched st |}.

Definition setSearched (v : bool) (st : State) : State :=
  {| query := query st; products := products st; sources := sources st;
     isLoading := isLoading st; isListening := isListening st;
     error := error st; searched := v |}.

(** The four messages the component writes into [error]; the letters
    outside ASCII are given by their code units. *)
Definition msg_parse : jsstring :=
  js "Yan" ++ [305] ++ js "tta bir hata olu" ++ [351]
  ++ js "tu. Model beklenen formatta veri g" ++ [246] ++ js "ndermedi.".

Definition msg_request : jsstring :=
  [220] ++ js "r" ++ [252] ++ js "nler al" ++ [305] ++ js "n" ++ [305]
  ++ js "rken bir hata olu" ++ [351] ++ js "tu. L" ++ [252]
  ++ js "tfen tekrar deneyin.".

Definition msg_unsupported : jsstring :=
  js "Taray" ++ [305] ++ js "c" ++ [305] ++ js "n" ++ [305]
  ++ js "z ses tan" ++ [305] ++ js "may" ++ [305] ++ js " desteklemiyor.".

Definition msg_recognition (event_error : jsstring) : jsstring :=
  js "Ses tan" ++ [305] ++ js "ma hatas" ++ [305] ++ js ": " ++ event_error.

(** *** Lines 59-67: the citation sources *)

(** The arrow function of line 62. *)
Definition to_source (chunk : GroundingChunk) : option Source :=
  match web chunk with
  | Some w =>
      match web_uri w with
      | Some u =>
          if JsString.truthy u then
            Some {| uri := u;
                    title := match web_title w with
                             | Some t => if JsString.truthy t then t else u
                             | None => u
                             end |}
          else None
      | None => None
      end
  | None => None
  end.

(** [.filter(source => source !== null)] *)
Fixpoint not_null {A : Type} (l : list (option A)) : list A :=
  match l with
  | [] => []
  | Some a :: l' => a :: not_null l'
  | None :: l' => not_null l'
  end.

Definition webSources (chunks : list GroundingChunk) : list Source :=
  not_null (map to_source chunks).

Definition uniqueSources (ws : list Source) : list Source :=
  JsMap.values (JsMap.of_entries (map (fun item => (uri item, item)) ws)).

(** [response.candidates?.[0]?.groundingMetadata] *)
Definition first_grounding (response : GenerateContentResponse)
  : option GroundingMetadata :=
  match candidates response with
  | Some (c :: _) => groundingMetadata c
  | _ => None
  end.

(** [groundingMetadata?.groundingChunks] *)
Definition chunks_of (response : GenerateContentResponse)
  : option (list GroundingChunk) :=
  match first_grounding response with
  | Some gm => groundingChunks gm
  | None => None
  end.

(** Lines 60-67; an array, even an empty one, is truthy. *)
Definition store_sources (response : GenerateContentResponse) (st : State)
  : State :=
  match chunks_of response with
  | Some chunks => setSources (uniqueSources (webSources chunks)) st
  | None => st
  end.

(** *** [fetchProducts] *)

Section WithParser.

(** [JSON.parse] belongs to the host: a value, or a SyntaxError thrown. *)
Variable JSON_parse : jsstring -> Completion JsValue.

(** Lines 75-82; both the parse and the property read sit inside the inner
    [try].  The calls of [console.error] write no cell and are left out. *)
Definition store_products (jsonText : jsstring) (st : State) : State :=
  let on_catch := setProducts (JArr []) (setError (Some msg_parse) st) in
  match JSON_parse jsonText with
  | Normal jsonResponse =>
      match get_products jsonResponse with
      | Normal p => setProducts (or_empty_array p) st
      | Throw => on_catch
      end
  | Throw => on_catch
  end.

(** Lines 59-82, the body of the outer [try] once the promise is fulfilled.
    [response.text.trim()] throws when [text] is [undefined], which the outer
    [catch] handles. *)
Definition on_fulfilled (response : GenerateContentResponse) (st : State)
  : State :=
  let st1 := store_sources response st in
  match text response with
  | Some t => store_products (extract_payload t) st1
  | None => setError (Some msg_request) st1
  end.

(** Lines 42-46, up to the [await]. *)
Definition fetch_begin (st : State) : State :=
  setSearched true
    (setSources []
       (setProducts (JArr [])
          (setError None
             (setIsLoading true st)))).

(** The request sent on line 51, if any. *)
Definition fetch_request (searchQuery : jsstring) : option Request :=
  if JsString.truthy (trim searchQuery)
  then Some {| Genai.searchQuery := searchQuery |}
  else None.

(** From the [await] on: the rest of [try], [catch] and [finally]. *)
Definition fetch_settle (o : Outcome) (st : State) : State :=
  setIsLoading false
    match o with
    | Fulfilled response => on_fulfilled response st
    | Rejected => setError (Some msg_request) st
    end.

(** One whole call of [fetchProducts], from the call to the end of
    [finally], when nothing else runs in between. *)
Definition fetchProducts (searchQuery : jsstring) (o : Outcome) (st : State)
  : State :=
  if JsString.truthy (trim searchQuery)
  then fetch_settle o (fetch_begin st)
  else st.

End WithParser.

(** *** [handleVoiceSearch] and the handlers it installs *)

(** The state after the call, and whether [recognition.start()] was
    reached.  [supported] is the truthiness of the global
    [SpeechRecognition]. *)
Definition handleVoiceSearch (supported : bool) (st : State) : State * bool :=
  if negb supported then (setError (Some msg_unsupported) st, false)
  else if isListening st || isLoading st then (st, false)
  else (setError None (setIsListening true st), true).

Definition onspeechend (st : State) : State :=
  setIsListening false st.

Definition onerror (event_error : jsstring) (st : State) : State :=
  setIsListening false (setError (Some (msg_recognition event_error)) st).

(** *** Rendering *)

Inductive StatusView :=
| Loader
| ListeningMessage
| ErrorMessage (message : jsstring)
| NoProductsMessage
| PromptMessage
| Nothing.

(** [products.length === 0] *)
Definition no_products (st : State) : Completion bool :=
  match get_length (products st) with
  | Normal len => Normal (strictly_zero len)
  | Throw => Throw
  end.

Definition renderStatus (st : State) : Completion StatusView :=
  if isLoading st then Normal Loader
  else if isListening st then Normal ListeningMessage
  else
    match error st with
    | Some (c :: m) => Normal (ErrorMessage (c :: m))
    | _ =>
        let zero_products :=
          if searched st && negb (isLoading st)
          then no_products st
          else Normal false in
        match zero_products with
        | Throw => Throw
        | Normal true => Normal NoProductsMessage
        | Normal false =>
            if negb (searched st) then Normal PromptMessage else Normal Nothing
        end
    end.

(** The [disabled] attributes of lines 181, 183 and 191. *)
Definition input_disabled (st : State) : bool :=
  isLoading st || isListening st.

Definition submit_disabled (st : State) : bool :=
  isLoading st || isListening st || negb (JsString.truthy (trim (query st))).

Definition voice_disabled (st : State) : bool :=
  isLoading st.

(** *** Lines 218-239: the results grid *)

(** One product card: the values put into the [img], the heading, the
    paragraph, the price and the link. *)
Record Card := {
  card_src : option JsValue;
  card_alt : option JsValue;
  card_name : option JsValue;
  card_description : option JsValue;
  card_price : option JsValue;
  card_href : option JsValue
}.

(** [product.k] for one of the five keys: [undefined] on anything but an
    object that has the key.  The caller has excluded [null]. *)
Definition product_field (product : JsValue) (k : jsstring) : option JsValue :=
  match product with
  | JObj fields => own_property k fields
  | _ => None
  end.

Definition child_ok (v : option JsValue) : bool :=
  match v with
  | Some x => valid_child x
  | None => true
  end.

(** The callback of [products.map]: reading a property of [null] throws,
    and so does React on a name, a description or a price that is a plain
    object. *)
Definition render_card (product : JsValue) : Completion Card :=
  match product with
  | JNull => Throw
  | _ =>
      let name := product_field product (js "name") in
      let description := product_field product (js "description") in
      let price := product_field product (js "price") in
      if child_ok name && child_ok description && child_ok price then
        Normal {| card_src := product_field product (js "imageUrl");
                  card_alt := name;
                  card_name := name;
                  card_description := description;
                  card_price := price;
                  card_href := product_field product (js "productUrl") |}
      else Throw
  end.

Fixpoint render_cards (items : list JsValue) : Completion (list Card) :=
  match items with
  | [] => Normal []
  | product :: items' =>
      match render_card product, render_cards items' with
      | Normal card, Normal cards => Normal (card :: cards)
      | _, _ => Throw
      end
  end.

Section WithCoercion.

(** [ToNumber(v) > 0] for a string, an array or an object is the host's
    (string-to-number conversion). *)
Variable to_number_positive : JsValue -> bool.

(** [v > 0] *)
Definition greater_than_zero (v : option JsValue) : bool :=
  match v with
  | None => false
  | Some JNull => false
  | Some (JBool b) => b
  | Some (JNum n) => positive n
  | Some x => to_number_positive x
  end.

(** [products.length > 0], the test of line 218: the results grid is
    rendered only when it holds. *)
Definition grid_test (st : State) : Completion bool :=
  match get_length (products st) with
  | Normal len => Normal (greater_than_zero len)
  | Throw => Throw
  end.

(** [{products.length > 0 && (... products.map(...) ...)}]: [None] when
    nothing is rendered, the cards when the grid is, [Throw] when the render
    throws: reading [length] of [null], calling [map] on what is not an array,
    or inside a card. *)
Definition render_results (st : State) : Completion (option (list Card)) :=
  match grid_test st with
  | Throw => Throw
  | Normal false => Normal None
  | Normal true =>
      match products st with
      | JArr items =>
          match render_cards items with
          | Normal cards => Normal (Some cards)
          | Throw => Throw
          end
      | _ => Throw
      end
  end.

End WithCoercion.

(** Line 210, the text of a source link. *)
Definition source_label (source : Source) : jsstring :=
  if (50 <? length (title source))%nat
  then substring0 47 (title source) ++ js "..."
  else title source.

End App.
Import App.

(** ** The page: the component, the requests that have not settled and the
    speech recognitions that have not ended

    One event of the browser runs one handler to completion.  [step] is
    [None] when the event cannot occur: the control is disabled, there is no
    such request, or no recognition is running.  A recognition is not
    continuous: it ends with its result or with its error, and its
    [speechend] comes while it runs.  The form is submitted through its
    submit button, so only while that button is enabled. *)

Module Page.

Record t := {
  ui : State;
  in_flight : list Request;
  recognitions : nat
}.

Definition initial : t :=
  {| ui := App.initial; in_flight := []; recognitions := 0%nat |}.

Inductive Event :=
| Change (value : jsstring)
| Submit
| ClickVoice
| SpeechEnd
| Result (transcript : jsstring)
| RecognitionError (event_error : jsstring)
| Settle (i : nat) (o : Outcome).

Fixpoint remove_nth {A : Type} (i : nat) (l : list A) : list A :=
  match i, l with
  | _, [] => []
  | O, _ :: l' => l'
  | S i', a :: l' => a :: remove_nth i' l'
  end.

(** A call [fetchProducts(q)] up to its [await]. *)
Definition call_fetchProducts (q : jsstring) (p : t) : t :=
  match fetch_request q with
  | Some r =>
      {| ui := fetch_begin (ui p); in_flight := in_flight p ++ [r];
         recognitions := recognitions p |}
  | None => p
  end.

(** [handleTextSearch], and the [onresult] handler of a recognition. *)
Definition handleTextSearch (p : t) : t :=
  call_fetchProducts (query (ui p)) p.

Definition onresult (transcript : jsstring) (p : t) : t :=
  call_fetchProducts transcript
    {| ui := setQuery transcript (ui p); in_flight := in_flight p;
       recognitions := recognitions p |}.

(** What every handler keeps: the error is never the empty string, reading
    [products.length] does not throw, and before the first search there are
    neither products nor requests. *)
Definition well_formed (p : t) : Prop :=
  error (ui p) <> Some [] /\
  products (ui p) <> JNull /\
  (searched (ui p) = false -> products (ui p) = JArr [] /\ in_flight p = []).

Section WithHost.

Variable supported : bool.
Variable JSON_parse : jsstring -> Completion JsValue.

Definition step (p : t) (e : Event) : option t :=
  match e with
  | Change value =>
      if input_disabled (ui p) then None
      else Some {| ui := setQuery value (ui p); in_flight := in_flight p;
                   recognitions := recognitions p |}
  | Submit =>
      if submit_disabled (ui p) then None
      else Some (handleTextSearch p)
  | ClickVoice =>
      if voice_disabled (ui p) then None
      else
        let (st, started) := handleVoiceSearch supported (ui p) in
        Some {| ui := st; in_flight := in_flight p;
                recognitions :=
                  if started then S (recognitions p) else recognitions p |}
  | SpeechEnd =>
      match recognitions p with
      | O => None
      | S _ => Some {| ui := onspeechend (ui p); in_flight := in_flight p;
                       recognitions := recognitions p |}
      end
  | Result transcript =>
      match recognitions p with
      | O => None
      | S n =>
          Some (onresult transcript
                  {| ui := ui p; in_flight := in_flight p;
                     recognitions := n |})
      end
  | RecognitionError event_error =>
      match recognitions p with
      | O => None
      | S n => Some {| ui := onerror event_error (ui p);
                       in_flight := in_flight p; recognitions := n |}
      end
  | Settle i o =>
      match nth_error (in_flight p) i with
      | None => None
      | Some _ =>
          Some {| ui := fetch_settle JSON_parse o (ui p);
                  in_flight := remove_nth i (in_flight p);
                  recognitions := recognitions p |}
      end
  end.

Fixpoint run (events : list Event) (p : t) : option t :=
  match events with
  | [] => Some p
  | e :: events' =>
      match step p e with
      | Some p' => run events' p'
      | None => None
      end
  end.

Definition reachable (p : t) : Prop :=
  exists events, run events initial = Some p.

End WithHost.

End Page.

(** ** The statements of the specification, in its own words *)

Module Spec.

(** A query that is empty or consists only of whitespace. *)
Definition blank (q : jsstring) : bool := forallb is_white_space q.

(** [s] contains a fenced block with this content at this place. *)
Definition block_at (s pre content post : jsstring) : Prop :=
  s = pre ++ fence_open ++ content ++ fence_close ++ post.

Definition has_block (s : jsstring) : Prop :=
  exists pre content post, block_at s pre content post.

(** The content of the first block: no block opens further left, and no
    block that opens at the same place closes earlier. *)
Definition first_block (s content : jsstring) : Prop :=
  exists pre post,
    block_at s pre content post /\
    forall pre' content' post',
      block_at s pre' content' post' ->
      (length pre < length pre')%nat \/
      (length pre = length pre' /\ length content <= length content')%nat.

(** The distinct elements of a list, each at its first occurrence. *)
Fixpoint first_occurrences (l : list jsstring) : list jsstring :=
  match l with
  | [] => []
  | x :: l' =>
      x :: filter (fun y => negb (JsString.eqb y x)) (first_occurrences l')
  end.

(** The web uri of a chunk, when the chunk has a web part with a uri that
    is not empty. *)
Definition web_uri_of (chunk : GroundingChunk) : option jsstring :=
  match web chunk with
  | Some w =>
      match web_uri w with
      | Some (c :: u) => Some (c :: u)
      | _ => None
      end
  | None => None
  end.

(** The web uris of the chunks, in the order of the chunks. *)
Fixpoint web_uris (chunks : list GroundingChunk) : list jsstring :=
  match chunks with
  | [] => []
  | chunk :: chunks' =>
      match web_uri_of chunk with
      | Some u => u :: web_uris chunks'
      | None => web_uris chunks'
      end
  end.

(** The title a chunk gives: its web title, or its uri when the title is
    missing or empty. *)
Definition title_of (w : Web) (u : jsstring) : jsstring :=
  match web_title w with
  | Some (c :: t) => c :: t
  | _ => u
  end.

(** The last source of a list that carries the uri [u]. *)
Fixpoint last_with_uri (u : jsstring) (ws : list Source) : option Source :=
  match ws with
  | [] => None
  | s :: ws' =>
      match last_with_uri u ws' with
      | Some s' => Some s'
      | None => if JsString.eqb (uri s) u then Some s else None
      end
  end.

End Spec.

(** * Properties *)

(** ** Strings and the fence pattern *)

Section StringFacts.

Lemma eqb_eq (a b : jsstring) : JsString.eqb a b = true <-> a = b.
Proof.
  unfold JsString.eqb. destruct (list_eq_dec N.eq_dec a b); split; congruence.
Qed.

Lemma eqb_neq (a b : jsstring) : JsString.eqb a b = false <-> a <> b.
Proof.
  unfold JsString.eqb. destruct (list_eq_dec N.eq_dec a b); split; congruence.
Qed.

Lemma eqb_refl (a : jsstring) : JsString.eqb a a = true.
Proof. now apply eqb_eq. Qed.

Lemma eqb_sym (a b : jsstring) : JsString.eqb a b = JsString.eqb b a.
Proof.
  destruct (JsString.eqb b a) eqn:E.
  - apply eqb_eq in E. subst. apply eqb_refl.
  - apply eqb_neq in E. apply eqb_neq. congruence.
Qed.

Lemma strip_app (p r : jsstring) : strip p (p ++ r) = Some r.
Proof.
  induction p as [|a p IH]; simpl; [reflexivity|].
  now rewrite N.eqb_refl.
Qed.

Lemma strip_inv (p s r : jsstring) : strip p s = Some r -> s = p ++ r.
Proof.
  revert s. induction p as [|a p IH]; intros s H; simpl in *.
  - congruence.
  - destruct s as [|b s]; [discriminate|].
    destruct (a =? b) eqn:E; [|discriminate].
    apply N.eqb_eq in E. subst b. f_equal. now apply IH.
Qed.

(** Two splittings of one list at the same length coincide. *)
Lemma app_same_length (A : Type) (a b x y : list A) :
  length a = length b -> a ++ x = b ++ y -> a = b /\ x = y.
Proof.
  revert b. induction a as [|h a IH]; intros [|k b] L E; simpl in *;
    try discriminate.
  - now split.
  - injection E as -> E. destruct (IH b) as [-> ->]; auto.
Qed.

Lemma trimStart_nil (s : jsstring) :
  trimStart s = [] <-> forallb is_white_space s = true.
Proof.
  induction s as [|c s IH]; simpl.
  - tauto.
  - destruct (is_white_space c); simpl; [exact IH|].
    split; discriminate.
Qed.

Lemma trim_blank (s : jsstring) :
  JsString.truthy (trim s) = false <-> Spec.blank s = true.
Proof.
  unfold trim, trimEnd, Spec.blank.
  destruct (trimStart s) as [|c r] eqn:E.
  - simpl. rewrite <- trimStart_nil. tauto.
  - assert (NB : forallb is_white_space s <> true)
      by (rewrite <- trimStart_nil; congruence).
    assert (C : is_white_space c = false).
    { clear NB. induction s as [|d s IH]; simpl in E; [discriminate|].
      destruct (is_white_space d) eqn:D; [auto|congruence]. }
    destruct (rev (trimStart (rev (c :: r)))) as [|x l] eqn:R.
    + exfalso. apply (f_equal (@rev N)) in R. rewrite rev_involutive in R.
      simpl in R. apply trimStart_nil in R.
      rewrite forallb_app in R. simpl in R. rewrite C in R.
      rewrite !andb_false_r in R. discriminate.
    + simpl. split; [discriminate|]. intros H. now destruct NB.
Qed.

End StringFacts.

Section FenceFacts.

(** The lazy group stops at the first closing fence. *)
Lemma lazy_group_sound (s g : jsstring) :
  lazy_group s = Some g ->
  exists post,
    s = g ++ fence_close ++ post /\
    forall g' post', s = g' ++ fence_close ++ post' ->
                     (length g <= length g')%nat.
Proof.
  revert g. induction s as [|c s IH]; intros g H.
  - cbn in H. discriminate.
  - cbn [lazy_group] in H.
    destruct (strip fence_close (c :: s)) as [r|] eqn:S.
    + injection H as <-. exists r. split.
      * now apply strip_inv in S.
      * intros; simpl; lia.
    + destruct (lazy_group s) as [g0|] eqn:L; [|discriminate].
      injection H as <-. destruct (IH g0 eq_refl) as (post & E & M).
      exists post. split; [simpl; now f_equal|].
      intros [|c' g'] post' E'.
      * change (c :: s = fence_close ++ post') in E'. rewrite E' in S.
        rewrite strip_app in S. discriminate.
      * simpl in E'. injection E' as _ E'. apply M in E'. simpl. lia.
Qed.

Lemma lazy_group_none (s g post : jsstring) :
  lazy_group s = None -> s <> g ++ fence_close ++ post.
Proof.
  revert g. induction s as [|c s IH]; intros g H E.
  - destruct g; discriminate.
  - cbn [lazy_group] in H.
    destruct (strip fence_close (c :: s)) as [r|] eqn:S; [discriminate|].
    destruct (lazy_group s) eqn:L; [discriminate|].
    destruct g as [|c' g].
    + change (c :: s = fence_close ++ post) in E. rewrite E in S.
      rewrite strip_app in S. discriminate.
    + simpl in E. injection E as _ E. now apply (IH g).
Qed.

Lemma match_here_block (g post : jsstring) :
  match_here (fence_open ++ g ++ fence_close ++ post) <> None.
Proof.
  unfold match_here. rewrite strip_app.
  intros L. exact (lazy_group_none _ g post L eq_refl).
Qed.

(** [match] finds the first block. *)
Lemma re_match_sound (s g : jsstring) :
  re_match s = Some g -> Spec.first_block s g.
Proof.
  revert g. induction s as [|c s IH]; intros g H.
  - cbn in H. discriminate.
  - cbn [re_match] in H. destruct (match_here (c :: s)) as [g0|] eqn:M.
    + injection H as <-. unfold match_here in M.
      destruct (strip fence_open (c :: s)) as [rest|] eqn:S; [|discriminate].
      apply strip_inv in S. destruct (lazy_group_sound _ _ M) as (post & E & Min).
      exists [], post. split.
      * unfold Spec.block_at. rewrite S, E. reflexivity.
      * intros [|x pre'] g' post' B; [right|left; simpl; lia].
        split; [reflexivity|]. unfold Spec.block_at in B.
        rewrite S, app_nil_l in B. apply app_inv_head in B. now apply Min in B.
    + destruct (IH g H) as (pre & post & B & Min).
      exists (c :: pre), post. split.
      * unfold Spec.block_at in *. simpl. now f_equal.
      * intros [|x pre'] g' post' B'.
        -- unfold Spec.block_at in B'. rewrite app_nil_l in B'.
           rewrite B' in M. now destruct (match_here_block g' post').
        -- unfold Spec.block_at in B'. simpl in B'. injection B' as _ B'.
           destruct (Min pre' g' post' B') as [L|[L1 L2]]; simpl.
           ++ left; lia.
           ++ right; split; [lia|assumption].
Qed.

Lemma re_match_none (s : jsstring) :
  re_match s = None -> ~ Spec.has_block s.
Proof.
  induction s as [|c s IH]; intros H (pre & g & post & B).
  - destruct pre; discriminate.
  - cbn [re_match] in H. destruct (match_here (c :: s)) eqn:M; [discriminate|].
    destruct pre as [|x pre].
    + unfold Spec.block_at in B. rewrite app_nil_l in B. rewrite B in M.
      now destruct (match_here_block g post).
    + unfold Spec.block_at in B. simpl in B. injection B as _ B.
      apply (IH H). now exists pre, g, post.
Qed.

(** A string has one first block at most. *)
Lemma first_block_unique (s g1 g2 : jsstring) :
  Spec.first_block s g1 -> Spec.first_block s g2 -> g1 = g2.
Proof.
  intros (p1 & q1 & B1 & M1) (p2 & q2 & B2 & M2).
  destruct (M1 _ _ _ B2) as [L|[L1 L1']];
    destruct (M2 _ _ _ B1) as [L'|[L2 L2']]; try lia.
  unfold Spec.block_at in *. rewrite B1 in B2.
  apply app_same_length in B2; [|assumption]. destruct B2 as [_ B2].
  apply app_inv_head in B2.
  apply app_same_length in B2; [tauto|lia].
Qed.

End FenceFacts.

(** C1, amended: the payload handed to [JSON.parse] is the content of the
    first fenced block of the trimmed text when the text has such a block and
    that content is not empty; it is the whole trimmed text when there is no
    block, and also when the content of the first block is empty. *)
Theorem extract_payload_first_block (text : jsstring) :
  (Spec.has_block (trim text) ->
   exists g, Spec.first_block (trim text) g) /\
  (forall g, Spec.first_block (trim text) g ->
             extract_payload text = if JsString.truthy g then g else trim text) /\
  (~ Spec.has_block (trim text) -> extract_payload text = trim text).
Proof.
  unfold extract_payload.
  destruct (re_match (trim text)) as [g0|] eqn:M.
  - pose proof (re_match_sound _ _ M) as F. split; [|split].
    + intros _. now exists g0.
    + intros g Fg. now rewrite (first_block_unique _ _ _ Fg F).
    + intros NB. destruct NB. destruct F as (pre & post & B & _).
      now exists pre, g0, post.
  - pose proof (re_match_none _ M) as NB. split; [|split].
    + intros H. now destruct NB.
    + intros g (pre & post & B & _). destruct NB. now exists pre, g, post.
    + reflexivity.
Qed.

Lemma extract_payload_first_block_witness :
  Spec.first_block
    (trim (js "  ```json" ++ [10] ++ js "{}" ++ [10] ++ js "```  "))
    (js "{}") /\
  extract_payload (js "  ```json" ++ [10] ++ js "{}" ++ [10] ++ js "```  ")
  = js "{}".
Proof.
  assert (F : Spec.first_block
                (trim (js "  ```json" ++ [10] ++ js "{}" ++ [10] ++ js "```  "))
                (js "{}"))
    by (apply re_match_sound; vm_compute; reflexivity).
  split; [exact F|].
  exact (proj1 (proj2 (extract_payload_first_block _)) _ F).
Defined.

(** C1 as stated fails on a block whose content is empty: on
    [```json\n\n```] the first block has the empty content, and line 71 keeps
    the whole text because [match[1]] is falsy. *)
Lemma extract_payload_empty_block :
  Spec.first_block (trim (fence_open ++ fence_close)) [] /\
  extract_payload (fence_open ++ fence_close) = fence_open ++ fence_close /\
  fence_open ++ fence_close <> [].
Proof.
  split; [apply re_match_sound; vm_compute; reflexivity|].
  split; [vm_compute; reflexivity|discriminate].
Qed.

(** ** [fetchProducts] *)

Section FetchFacts.

Variable JSON_parse : jsstring -> Completion JsValue.

Lemma truthy_trim (q : jsstring) :
  JsString.truthy (trim q) = negb (Spec.blank q).
Proof.
  destruct (Spec.blank q) eqn:B.
  - now apply trim_blank.
  - destruct (JsString.truthy (trim q)) eqn:T; [reflexivity|].
    apply trim_blank in T. congruence.
Qed.

Lemma store_products_frame (jsonText : jsstring) (st : State) :
  let st' := store_products JSON_parse jsonText st in
  sources st' = sources st /\ isLoading st' = isLoading st /\
  isListening st' = isListening st /\ searched st' = searched st /\
  query st' = query st.
Proof.
  unfold store_products. destruct (JSON_parse jsonText) as [v|];
    [destruct (get_products v)|]; cbn; auto.
Qed.

Lemma store_sources_frame (response : GenerateContentResponse) (st : State) :
  let st' := store_sources response st in
  products st' = products st /\ isLoading st' = isLoading st /\
  isListening st' = isListening st /\ searched st' = searched st /\
  query st' = query st /\ error st' = error st.
Proof.
  unfold store_sources. destruct (chunks_of response); cbn; auto 10.
Qed.

Lemma sources_after_fetch (q : jsstring) (response : GenerateContentResponse)
      (st : State) :
  Spec.blank q = false ->
  sources (fetchProducts JSON_parse q (Fulfilled response) st)
  = match chunks_of response with
    | Some chunks => uniqueSources (webSources chunks)
    | None => []
    end.
Proof.
  intros B. unfold fetchProducts. rewrite truthy_trim, B. cbn [negb].
  unfold fetch_settle, on_fulfilled. cbn [sources setIsLoading].
  assert (S : sources (store_sources response (fetch_begin st))
              = match chunks_of response with
                | Some chunks => uniqueSources (webSources chunks)
                | None => []
                end).
  { unfold store_sources. now destruct (chunks_of response). }
  destruct (text response) as [t|].
  - destruct (store_products_frame (extract_payload t)
                (store_sources response (fetch_begin st))) as [-> _].
    exact S.
  - exact S.
Qed.

End FetchFacts.

(** C8: a query that is empty or all whitespace sends no request and leaves
    every cell of the state as it was. *)
Theorem fetchProducts_blank_query
        (JSON_parse : jsstring -> Completion JsValue)
        (q : jsstring) (o : Outcome) (st : State) (p : Page.t) :
  Spec.blank q = true ->
  fetch_request q = None /\
  fetchProducts JSON_parse q o st = st /\
  Page.call_fetchProducts q p = p.
Proof.
  intros B. unfold Page.call_fetchProducts, fetch_request, fetchProducts.
  rewrite truthy_trim, B. auto.
Qed.

Lemma fetchProducts_blank_query_witness :
  Spec.blank (js "  ") = true /\
  fetchProducts (fun _ => Throw) (js "  ") Rejected
    (setError (Some msg_request) (setIsLoading true App.initial))
  = setError (Some msg_request) (setIsLoading true App.initial).
Proof.
  split; [reflexivity|].
  apply (fetchProducts_blank_query (fun _ => Throw) (js "  ") Rejected
           _ Page.initial).
  reflexivity.
Defined.

(** C9: a call with a query that is not blank sends its request in a state
    where the error is null, the products and the sources are empty, and the
    searched flag (and the loading flag) is set; what comes after the reply
    starts from that state. *)
Theorem fetchProducts_begins_clean
        (JSON_parse : jsstring -> Completion JsValue)
        (q : jsstring) (o : Outcome) (st : State) (p : Page.t) :
  Spec.blank q = false ->
  fetch_request q = Some {| searchQuery := q |} /\
  Page.call_fetchProducts q p
  = {| Page.ui := fetch_begin (Page.ui p);
       Page.in_flight := Page.in_flight p ++ [{| searchQuery := q |}];
       Page.recognitions := Page.recognitions p |} /\
  error (fetch_begin st) = None /\
  products (fetch_begin st) = JArr [] /\
  sources (fetch_begin st) = [] /\
  searched (fetch_begin st) = true /\
  isLoading (fetch_begin st) = true /\
  fetchProducts JSON_parse q o st = fetch_settle JSON_parse o (fetch_begin st).
Proof.
  intros B. unfold Page.call_fetchProducts, fetch_request, fetchProducts.
  rewrite truthy_trim, B. cbn. auto 10.
Qed.

Lemma fetchProducts_begins_clean_witness :
  Spec.blank (js "mouse") = false /\
  error (fetch_begin (setError (Some msg_parse) App.initial)) = None.
Proof.
  split; [reflexivity|].
  apply (fetchProducts_begins_clean (fun _ => Throw) (js "mouse") Rejected
           (setError (Some msg_parse) App.initial) Page.initial).
  reflexivity.
Defined.




(** C6 fails on the code: nothing checks what [JSON.parse] returns, while
    the sources are checked chunk by chunk on lines 62-63.  For the reply text
    [{"products":[{"name":"x"}]}] the stored product has one field. *)
Lemma stored_product_lacks_fields :
  let reply := js "{" ++ [34] ++ js "products" ++ [34] ++ js ":[{" ++ [34]
               ++ js "name" ++ [34] ++ js ":" ++ [34] ++ js "x" ++ [34]
               ++ js "}]}" in
  let parsed := JObj [(js "products", JArr [JObj [(js "name", JStr (js "x"))]])] in
  let host_parse := fun s => if JsString.eqb s reply then Normal parsed else Throw in
  products (fetchProducts host_parse (js "mouse")
              (Fulfilled {| candidates := None; text := Some reply |})
              App.initial)
  = JArr [JObj [(js "name", JStr (js "x"))]] /\
  is_product (JObj [(js "name", JStr (js "x"))]) = false.
Proof. split; vm_compute; reflexivity. Qed.

(** C10: the label of a source link has 50 code units at most: a longer
    title is cut to its first 47 followed by three dots, a title of 50 or
    fewer is shown as it is. *)
Theorem source_label_at_most_50 (source : Source) :
  (length (source_label source) <= 50)%nat /\
  ((50 < length (title source))%nat ->
   source_label source = firstn 47 (title source) ++ js "..." /\
   length (source_label source) = 50%nat) /\
  ((length (title source) <= 50)%nat ->
   source_label source = title source).
Proof.
  unfold source_label, substring0.
  destruct (50 <? length (title source))%nat eqn:L.
  - apply Nat.ltb_lt in L.
    assert (length (firstn 47 (title source) ++ js "...") = 50%nat) as E.
    { rewrite length_app, length_firstn.
      change (length (js "...")) with 3%nat. lia. }
    split; [lia|]. split; [auto|lia].
  - apply Nat.ltb_ge in L. split; [assumption|]. split; [lia|reflexivity].
Qed.

Lemma source_label_at_most_50_witness :
  source_label {| uri := js "u"; title := js "short title" |}
  = js "short title".
Proof.
  apply (source_label_at_most_50 {| uri := js "u"; title := js "short title" |}).
  cbn. lia.
Defined.

(** ** [Map] *)

Section MapFacts.

Context {V : Type}.
Implicit Types (m : list (jsstring * V)) (k : jsstring) (v : V).

Lemma filter_twice (A : Type) (f g : A -> bool) (l : list A) :
  filter f (filter g l) = filter (fun x => g x && f x) l.
Proof.
  induction l as [|a l IH]; simpl; [reflexivity|].
  destruct (g a); simpl; [destruct (f a)|]; now rewrite IH.
Qed.

Lemma keys_set k v m :
  JsMap.keys (JsMap.set k v m)
  = if JsMap.has k m then JsMap.keys m else JsMap.keys m ++ [k].
Proof.
  unfold JsMap.has. induction m as [|[k' v'] m IH]; simpl; [reflexivity|].
  destruct (JsString.eqb k k'); simpl; [reflexivity|].
  rewrite IH. now destruct (existsb (JsString.eqb k) (JsMap.keys m)).
Qed.

Lemma has_set k v m y :
  JsMap.has y (JsMap.set k v m) = JsString.eqb y k || JsMap.has y m.
Proof.
  unfold JsMap.has. rewrite keys_set. unfold JsMap.has.
  destruct (existsb (JsString.eqb k) (JsMap.keys m)) eqn:H.
  - destruct (JsString.eqb y k) eqn:E; [|reflexivity].
    apply eqb_eq in E. subst y. now rewrite H.
  - rewrite existsb_app. simpl. rewrite orb_false_r. apply orb_comm.
Qed.

Lemma get_set k v m y :
  JsMap.get y (JsMap.set k v m)
  = if JsString.eqb y k then Some v else JsMap.get y m.
Proof.
  induction m as [|[k' v'] m IH]; simpl; [reflexivity|].
  destruct (JsString.eqb k k') eqn:E; simpl.
  - apply eqb_eq in E. subst k'. now destruct (JsString.eqb y k).
  - rewrite IH. destruct (JsString.eqb y k) eqn:Y; [|reflexivity].
    apply eqb_eq in Y. subst y. now rewrite E.
Qed.

Lemma get_app_one k m (e : jsstring * V) :
  JsMap.get k (m ++ [e])
  = match JsMap.get k m with
    | Some v => Some v
    | None => if JsString.eqb k (fst e) then Some (snd e) else None
    end.
Proof.
  induction m as [|[k' v'] m IH]; simpl.
  - now destruct e.
  - now destruct (JsString.eqb k k').
Qed.

Lemma get_In k v m : JsMap.get k m = Some v -> In (k, v) m.
Proof.
  induction m as [|[k' v'] m IH]; simpl; [discriminate|].
  destruct (JsString.eqb k k') eqn:E.
  - apply eqb_eq in E. intros [= ->]. left. now subst.
  - auto.
Qed.

Lemma In_get k v m :
  NoDup (JsMap.keys m) -> In (k, v) m -> JsMap.get k m = Some v.
Proof.
  induction m as [|[k' v'] m IH]; simpl; [tauto|].
  intros ND [E|I].
  - injection E as -> ->. now rewrite eqb_refl.
  - inversion ND as [|? ? NI ND']; subst.
    destruct (JsString.eqb k k') eqn:E; [|auto].
    apply eqb_eq in E. subst k'. destruct NI.
    change k with (fst (k, v)). now apply in_map.
Qed.

(** The keys after a run of [set]: those there before, then the new ones,
    each where it first occurs. *)
Lemma keys_fold_set (entries : list (jsstring * V)) m :
  JsMap.keys (fold_left (fun m e => JsMap.set (fst e) (snd e) m) entries m)
  = JsMap.keys m
    ++ filter (fun y => negb (JsMap.has y m))
         (Spec.first_occurrences (map fst entries)).
Proof.
  revert m. induction entries as [|[k v] entries IH]; intros m; simpl.
  - now rewrite app_nil_r.
  - rewrite IH, filter_twice.
    rewrite (filter_ext (fun y => negb (JsMap.has y (JsMap.set k v m)))
               (fun y => negb (JsString.eqb y k) && negb (JsMap.has y m)))
      by (intros y; rewrite has_set; apply negb_orb).
    rewrite keys_set. destruct (JsMap.has k m); simpl;
      [reflexivity|now rewrite <- app_assoc].
Qed.

(** The value under a key after a run of [set]: the one set last. *)
Lemma get_fold_set (entries : list (jsstring * V)) m k :
  JsMap.get k (fold_left (fun m e => JsMap.set (fst e) (snd e) m) entries m)
  = match JsMap.get k (rev entries) with
    | Some v => Some v
    | None => JsMap.get k m
    end.
Proof.
  revert m. induction entries as [|[k' v'] entries IH]; intros m; simpl;
    [reflexivity|].
  rewrite IH, get_app_one, get_set. simpl.
  destruct (JsMap.get k (rev entries)); [reflexivity|].
  now destruct (JsString.eqb k k').
Qed.

End MapFacts.

Section FirstOccurrences.

Lemma first_occurrences_In (x : jsstring) (l : list jsstring) :
  In x (Spec.first_occurrences l) <-> In x l.
Proof.
  induction l as [|a l IH]; simpl; [tauto|].
  rewrite filter_In, IH. destruct (list_eq_dec N.eq_dec a x) as [->|NE].
  - tauto.
  - split; [tauto|]. intros [E|I]; [tauto|]. right. split; [assumption|].
    apply negb_true_iff, eqb_neq. congruence.
Qed.

Lemma first_occurrences_NoDup (l : list jsstring) :
  NoDup (Spec.first_occurrences l).
Proof.
  induction l as [|a l IH]; simpl; constructor.
  - rewrite filter_In, eqb_refl. simpl. intros [_ F]. discriminate.
  - now apply NoDup_filter.
Qed.

End FirstOccurrences.

(** ** The citation sources *)

Section SourceFacts.

Lemma to_source_inv (chunk : GroundingChunk) (s : Source) :
  to_source chunk = Some s ->
  exists w,
    web chunk = Some w /\ web_uri w = Some (uri s) /\ uri s <> [] /\
    title s = match web_title w with
              | Some t => if JsString.truthy t then t else uri s
              | None => uri s
              end.
Proof.
  unfold to_source. destruct (web chunk) as [w|] eqn:W; [|discriminate].
  destruct (web_uri w) as [u|] eqn:U; [|discriminate].
  destruct u as [|c u]; [discriminate|]. cbn [JsString.truthy].
  intros [= <-]. exists w. cbn. split; [reflexivity|]. split; [assumption|].
  split; [discriminate|reflexivity].
Qed.

Lemma to_source_of_uri (chunk : GroundingChunk) (w : Web) (u : jsstring) :
  web chunk = Some w -> web_uri w = Some u -> u <> [] ->
  exists s, to_source chunk = Some s /\ uri s = u.
Proof.
  intros W U NE. unfold to_source. rewrite W, U.
  destruct u as [|c u]; [congruence|]. cbn [JsString.truthy].
  eexists. split; reflexivity.
Qed.

Lemma webSources_In (s : Source) (chunks : list GroundingChunk) :
  In s (webSources chunks) <->
  exists chunk, In chunk chunks /\ to_source chunk = Some s.
Proof.
  unfold webSources. induction chunks as [|c chunks IH]; simpl.
  - split; [tauto|]. intros (? & [] & _).
  - destruct (to_source c) as [s'|] eqn:T; simpl; rewrite IH; split.
    + intros [->|(chunk & I & E)]; [exists c; auto|exists chunk; auto].
    + intros (chunk & [->|I] & E); [left; congruence|right; now exists chunk].
    + intros (chunk & I & E). exists chunk; auto.
    + intros (chunk & [->|I] & E); [congruence|now exists chunk].
Qed.

Lemma get_rev_entries (u : jsstring) (ws : list Source) :
  JsMap.get u (rev (map (fun item => (uri item, item)) ws))
  = Spec.last_with_uri u ws.
Proof.
  induction ws as [|s ws IH]; simpl; [reflexivity|].
  rewrite get_app_one, IH. simpl. now rewrite (eqb_sym u).
Qed.

Lemma last_with_uri_In (u : jsstring) (ws : list Source) (s : Source) :
  Spec.last_with_uri u ws = Some s -> In s ws /\ uri s = u.
Proof.
  induction ws as [|a ws IH]; simpl; [discriminate|].
  destruct (Spec.last_with_uri u ws) as [s'|].
  - intros [= <-]. destruct (IH eq_refl). auto.
  - destruct (JsString.eqb (uri a) u) eqn:E; [|discriminate].
    intros [= <-]. apply eqb_eq in E. auto.
Qed.

Lemma keys_of_entries (ws : list Source) :
  JsMap.keys (JsMap.of_entries (map (fun item => (uri item, item)) ws))
  = Spec.first_occurrences (map uri ws).
Proof.
  unfold JsMap.of_entries. rewrite keys_fold_set, map_map. simpl.
  induction (Spec.first_occurrences (map uri ws)) as [|x l IH];
    simpl; congruence.
Qed.

Lemma entry_of_entries (ws : list Source) (k : jsstring) (s : Source) :
  In (k, s) (JsMap.of_entries (map (fun item => (uri item, item)) ws)) ->
  Spec.last_with_uri k ws = Some s.
Proof.
  intros I. apply In_get in I.
  - unfold JsMap.of_entries in I. rewrite get_fold_set, get_rev_entries in I.
    now destruct (Spec.last_with_uri k ws).
  - rewrite keys_of_entries. apply first_occurrences_NoDup.
Qed.

Lemma uniqueSources_last (ws : list Source) (s : Source) :
  In s (uniqueSources ws) -> Spec.last_with_uri (uri s) ws = Some s.
Proof.
  unfold uniqueSources, JsMap.values. intros I.
  apply in_map_iff in I. destruct I as ([k s'] & E & I). simpl in E. subst s'.
  pose proof (entry_of_entries _ _ _ I) as L.
  now destruct (last_with_uri_In _ _ _ L) as [_ ->].
Qed.

Lemma uniqueSources_uris (ws : list Source) :
  map uri (uniqueSources ws) = Spec.first_occurrences (map uri ws).
Proof.
  rewrite <- keys_of_entries. unfold uniqueSources, JsMap.values, JsMap.keys.
  rewrite map_map. apply map_ext_in. intros [k s] I. simpl.
  apply entry_of_entries, last_with_uri_In in I. tauto.
Qed.

Lemma to_source_uri (chunk : GroundingChunk) :
  option_map uri (to_source chunk) = Spec.web_uri_of chunk.
Proof.
  unfold to_source, Spec.web_uri_of. destruct (web chunk) as [w|]; [|reflexivity].
  destruct (web_uri w) as [[|c u]|]; reflexivity.
Qed.

Lemma to_source_title (chunk : GroundingChunk) (s : Source) :
  to_source chunk = Some s ->
  exists w, web chunk = Some w /\ web_uri w = Some (uri s) /\
            title s = Spec.title_of w (uri s).
Proof.
  intros T. apply to_source_inv in T. destruct T as (w & W & U & _ & Ti).
  exists w. split; [assumption|]. split; [assumption|].
  rewrite Ti. unfold Spec.title_of. now destruct (web_title w) as [[|c t]|].
Qed.

Lemma webSources_uris (chunks : list GroundingChunk) :
  map uri (webSources chunks) = Spec.web_uris chunks.
Proof.
  unfold webSources. induction chunks as [|c chunks IH]; simpl; [reflexivity|].
  rewrite <- to_source_uri. destruct (to_source c); simpl; now rewrite IH.
Qed.

Lemma last_with_uri_None (u : jsstring) (ws : list Source) (s : Source) :
  Spec.last_with_uri u ws = None -> In s ws -> uri s <> u.
Proof.
  induction ws as [|a ws IH]; simpl; [tauto|].
  destruct (Spec.last_with_uri u ws); [discriminate|].
  destruct (JsString.eqb (uri a) u) eqn:E; [discriminate|].
  intros _ [<-|I]; [now apply eqb_neq|auto].
Qed.

(** The last source with a uri comes from the last chunk with that uri. *)
Lemma last_with_uri_chunk (u : jsstring) (chunks : list GroundingChunk)
      (s : Source) :
  Spec.last_with_uri u (webSources chunks) = Some s ->
  exists before chunk after,
    chunks = before ++ chunk :: after /\ to_source chunk = Some s /\
    forall c, In c after -> Spec.web_uri_of c <> Some u.
Proof.
  unfold webSources. revert s.
  induction chunks as [|c chunks IH]; intros s; simpl; [discriminate|].
  assert (Spec.last_with_uri u (not_null (map to_source chunks)) = None ->
          forall c', In c' chunks -> Spec.web_uri_of c' <> Some u) as Tail.
  { intros L c' I F. rewrite <- to_source_uri in F.
    destruct (to_source c') as [s'|] eqn:T; [|discriminate].
    injection F as F. revert F.
    apply (last_with_uri_None u (webSources chunks)); [exact L|].
    apply webSources_In. now exists c'. }
  assert (forall s', Spec.last_with_uri u (not_null (map to_source chunks))
                     = Some s' ->
                     exists before chunk after,
                       c :: chunks = before ++ chunk :: after /\
                       to_source chunk = Some s' /\
                       forall c', In c' after ->
                                  Spec.web_uri_of c' <> Some u) as Later.
  { intros s' L. destruct (IH s' L) as (before & chunk & after & -> & T & A).
    now exists (c :: before), chunk, after. }
  destruct (to_source c) as [s0|] eqn:T; simpl.
  - destruct (Spec.last_with_uri u (not_null (map to_source chunks)))
      as [s'|] eqn:L.
    + intros [= <-]. now apply Later.
    + destruct (JsString.eqb (uri s0) u); [|discriminate].
      intros [= <-]. exists [], c, chunks. auto.
  - intros L. revert L.
    destruct (Spec.last_with_uri u (not_null (map to_source chunks)))
      as [s'|] eqn:L; [|discriminate].
    intros [= <-]. now apply Later.
Qed.

End SourceFacts.

(** C2: the sources stored from the grounding chunks of a reply have one
    entry per distinct uri; their uris are the web uris of the chunks, each at
    its first occurrence in the chunk list, the chunks without a web uri being
    dropped; and the entry of a uri has the title of the last chunk of the
    list that carries this uri. *)
Theorem stored_sources_deduplicated
        (JSON_parse : jsstring -> Completion JsValue)
        (q : jsstring) (response : GenerateContentResponse)
        (chunks : list GroundingChunk) (st : State) :
  Spec.blank q = false ->
  chunks_of response = Some chunks ->
  let stored := sources (fetchProducts JSON_parse q (Fulfilled response) st) in
  NoDup (map uri stored) /\
  map uri stored = Spec.first_occurrences (Spec.web_uris chunks) /\
  (forall s, In s stored ->
             exists before chunk after w,
               chunks = before ++ chunk :: after /\
               web chunk = Some w /\ web_uri w = Some (uri s) /\
               (forall c, In c after -> Spec.web_uri_of c <> Some (uri s)) /\
               title s = Spec.title_of w (uri s)) /\
  (forall u, In u (map uri stored) <->
             exists chunk w, In chunk chunks /\ web chunk = Some w /\
                             web_uri w = Some u /\ u <> []).
Proof.
  intros B C. cbn zeta. rewrite (sources_after_fetch _ _ _ _ B), C.
  rewrite uniqueSources_uris.
  split; [apply first_occurrences_NoDup|].
  split; [now rewrite webSources_uris|]. split.
  - intros s I. apply uniqueSources_last, last_with_uri_chunk in I.
    destruct I as (before & chunk & after & E & T & A).
    destruct (to_source_title _ _ T) as (w & W & U & Ti).
    now exists before, chunk, after, w.
  - intros u. rewrite first_occurrences_In, in_map_iff. split.
    + intros (s & <- & I). apply webSources_In in I.
      destruct I as (chunk & I & T). apply to_source_inv in T.
      destruct T as (w & W & U & NE & _). now exists chunk, w.
    + intros (chunk & w & I & W & U & NE).
      destruct (to_source_of_uri _ _ _ W U NE) as (s & T & E).
      exists s. split; [assumption|]. apply webSources_In. now exists chunk.
Qed.

(** Three chunks, the first and the last with the same uri, and one
    without a web part: two sources are stored, the first with the title of
    the third chunk. *)
Example stored_sources_example :
  sources
    (fetchProducts (fun _ => Throw) (js "mouse")
       (Fulfilled
          {| candidates :=
               Some [{| groundingMetadata :=
                          Some {| groundingChunks :=
                                    Some [{| web := Some {| web_uri := Some (js "a");
                                                            web_title := Some (js "one") |} |};
                                          {| web := None |};
                                          {| web := Some {| web_uri := Some (js "b");
                                                            web_title := None |} |};
                                          {| web := Some {| web_uri := Some (js "a");
                                                            web_title := Some (js "three") |} |}]
                               |} |}];
             text := None |})
       App.initial)
  = [{| uri := js "a"; title := js "three" |};
     {| uri := js "b"; title := js "b" |}].
Proof. vm_compute. reflexivity. Qed.

Lemma stored_sources_deduplicated_witness :
  Spec.blank (js "mouse") = false /\
  map uri
    (sources
       (fetchProducts (fun _ => Throw) (js "mouse")
          (Fulfilled
             {| candidates :=
                  Some [{| groundingMetadata :=
                             Some {| groundingChunks :=
                                       Some [{| web := Some {| web_uri := Some (js "b");
                                                               web_title := Some (js "one") |} |};
                                             {| web := None |};
                                             {| web := Some {| web_uri := Some (js "a");
                                                               web_title := None |} |};
                                             {| web := Some {| web_uri := Some (js "b");
                                                               web_title := Some (js "three") |} |};
                                             {| web := Some {| web_uri := Some (js "c");
                                                               web_title := None |} |}]
                                  |} |}];
                text := None |})
          App.initial))
  = [js "b"; js "a"; js "c"].
Proof.
  split; [reflexivity|].
  set (chunks := [{| web := Some {| web_uri := Some (js "b");
                                    web_title := Some (js "one") |} |};
                  {| web := None |};
                  {| web := Some {| web_uri := Some (js "a");
                                    web_title := None |} |};
                  {| web := Some {| web_uri := Some (js "b");
                                    web_title := Some (js "three") |} |};
                  {| web := Some {| web_uri := Some (js "c");
                                    web_title := None |} |}]).
  exact (proj1 (proj2 (stored_sources_deduplicated
                         (fun _ => Throw) (js "mouse")
                         {| candidates :=
                              Some [{| groundingMetadata :=
                                         Some {| groundingChunks := Some chunks |} |}];
                            text := None |}
                         chunks App.initial eq_refl eq_refl))).
Defined.

(** C7: a source stored from a reply has a uri that is not empty and is the
    web uri of one of the reply's grounding chunks; its title is that chunk's
    web title, or the uri itself when the chunk has no web title (or an empty
    one). *)
Theorem stored_source_from_chunk
        (JSON_parse : jsstring -> Completion JsValue)
        (q : jsstring) (response : GenerateContentResponse) (st : State)
        (s : Source) :
  Spec.blank q = false ->
  In s (sources (fetchProducts JSON_parse q (Fulfilled response) st)) ->
  uri s <> [] /\
  (exists chunks chunk w,
      chunks_of response = Some chunks /\ In chunk chunks /\
      web chunk = Some w /\ web_uri w = Some (uri s) /\
      (web_title w = None -> title s = uri s) /\
      (forall t, web_title w = Some t ->
                 title s = if JsString.truthy t then t else uri s)) /\
  (forall chunk w u,
      web chunk = Some w -> web_uri w = Some u -> u <> [] ->
      web_title w = None ->
      to_source chunk = Some {| uri := u; title := u |}).
Proof.
  intros B. rewrite (sources_after_fetch _ _ _ _ B).
  destruct (chunks_of response) as [chunks|]; [|intros []].
  intros I. apply uniqueSources_last, last_with_uri_In in I.
  destruct I as [I _]. apply webSources_In in I.
  destruct I as (chunk & I & T). apply to_source_inv in T.
  destruct T as (w & W & U & NE & Ti). split; [assumption|]. split.
  - exists chunks, chunk, w. repeat split; try assumption.
    + intros E. now rewrite E in Ti.
    + intros t E. now rewrite E in Ti.
  - intros chunk' w' u W' U' NE' T'. unfold to_source.
    rewrite W', U', T'. destruct u; [congruence|reflexivity].
Qed.

Lemma stored_source_from_chunk_witness :
  uri {| uri := js "a"; title := js "a" |} <> [].
Proof.
  apply (stored_source_from_chunk (fun _ => Throw) (js "mouse")
           {| candidates :=
                Some [{| groundingMetadata :=
                           Some {| groundingChunks :=
                                     Some [{| web := Some {| web_uri := Some (js "a");
                                                             web_title := None |} |}]
                                |} |}];
              text := None |}
           App.initial {| uri := js "a"; title := js "a" |}).
  - reflexivity.
  - vm_compute. left. reflexivity.
Defined.

(** ** The page *)

Section PageFacts.

Variable supported : bool.
Variable JSON_parse : jsstring -> Completion JsValue.

Lemma or_empty_array_not_null (p : option JsValue) :
  or_empty_array p <> JNull.
Proof.
  destruct p as [[ |b|n|s| |]|]; cbn; try discriminate.
  - now destruct b.
  - now destruct (is_zero n).
  - now destruct s.
Qed.

Lemma fetch_settle_state (o : Outcome) (st : State) :
  let st' := fetch_settle JSON_parse o st in
  searched st' = searched st /\
  (error st' = error st \/ error st' = Some msg_parse \/
   error st' = Some msg_request) /\
  (products st' = products st \/ products st' = JArr [] \/
   exists p, products st' = or_empty_array p).
Proof.
  destruct o as [response|]; cbn -[msg_parse msg_request]; [|auto].
  unfold on_fulfilled.
  destruct (store_sources_frame response st) as (P & _ & _ & S & _ & E).
  destruct (text response) as [t|]; cbn -[msg_parse msg_request];
    [|rewrite S, P; auto].
  unfold store_products.
  destruct (JSON_parse (extract_payload t)) as [v|];
    [destruct (get_products v) as [p|]|]; cbn -[msg_parse msg_request];
    rewrite ?S, ?E, ?P; (split; [reflexivity|split]); eauto.
Qed.

Lemma call_fetchProducts_well_formed (q : jsstring) (p : Page.t) :
  Page.well_formed p -> Page.well_formed (Page.call_fetchProducts q p).
Proof.
  unfold Page.call_fetchProducts. destruct (fetch_request q); [|auto].
  intros (E & P & S). repeat split; cbn; discriminate.
Qed.

Lemma step_well_formed (p p' : Page.t) (e : Page.Event) :
  Page.well_formed p ->
  Page.step supported JSON_parse p e = Some p' ->
  Page.well_formed p'.
Proof.
  intros WF. pose proof WF as (E & P & S).
  assert (forall st n,
             (error st = error (Page.ui p) \/ exists c m, error st = Some (c :: m)
              \/ error st = None) ->
             products st = products (Page.ui p) ->
             searched st = searched (Page.ui p) ->
             Page.well_formed {| Page.ui := st;
                                 Page.in_flight := Page.in_flight p;
                                 Page.recognitions := n |}) as Frame.
  { intros st n Ee Ep Es. unfold Page.well_formed. cbn. rewrite Ep, Es.
    split; [|split; assumption].
    destruct Ee as [->|(c & m & [->| ->])]; [assumption|discriminate..]. }
  destruct e; cbn [Page.step].
  - destruct (input_disabled (Page.ui p)); intros [= <-].
    apply Frame; auto.
  - destruct (submit_disabled (Page.ui p)); intros [= <-].
    now apply call_fetchProducts_well_formed.
  - destruct (voice_disabled (Page.ui p)); [discriminate|].
    unfold handleVoiceSearch. destruct supported; cbn [negb].
    + destruct (isListening (Page.ui p) || isLoading (Page.ui p));
        intros [= <-]; apply Frame; auto.
      right. exists 0, []. auto.
    + intros [= <-]. apply Frame; auto.
      right. eexists _, _. left. reflexivity.
  - destruct (Page.recognitions p); intros [= <-]. apply Frame; auto.
  - destruct (Page.recognitions p); intros [= <-].
    apply call_fetchProducts_well_formed. apply Frame; auto.
  - destruct (Page.recognitions p); intros [= <-]. apply Frame; auto.
    right. eexists _, _. left. reflexivity.
  - destruct (nth_error (Page.in_flight p) i) as [r|] eqn:N; intros [= <-].
    destruct (fetch_settle_state o (Page.ui p)) as (S' & E' & P').
    unfold Page.well_formed. cbn [Page.ui Page.in_flight].
    assert (searched (Page.ui p) = true) as T.
    { destruct (searched (Page.ui p)); [reflexivity|].
      destruct (S eq_refl) as [_ F]. rewrite F in N. now destruct i. }
    split; [|split].
    + destruct E' as [->|[->| ->]]; [assumption|discriminate|discriminate].
    + destruct P' as [->|[->|[x ->]]];
        [assumption|discriminate|apply or_empty_array_not_null].
    + congruence.
Qed.

Lemma run_well_formed (events : list Page.Event) (p p' : Page.t) :
  Page.well_formed p ->
  Page.run supported JSON_parse events p = Some p' ->
  Page.well_formed p'.
Proof.
  revert p. induction events as [|e events IH]; intros p WF; cbn.
  - now intros [= <-].
  - destruct (Page.step supported JSON_parse p e) as [p1|] eqn:S;
      [|discriminate].
    apply IH. exact (step_well_formed _ _ _ WF S).
Qed.

Lemma reachable_well_formed (p : Page.t) :
  Page.reachable supported JSON_parse p -> Page.well_formed p.
Proof.
  intros [events R]. apply (run_well_formed events Page.initial); [|exact R].
  repeat split; cbn; discriminate.
Qed.

End PageFacts.

(** C4 fails when the reply carries a [products] value that is not an
    array: for the reply [{"products":5}] the number is stored, and the page
    then shows none of the five status views and no results either. *)
Theorem status_blank_without_results (to_number_positive : JsValue -> bool) :
  let reply := js "{" ++ [34] ++ js "products" ++ [34] ++ js ":5}" in
  let host_parse :=
    fun s => if JsString.eqb s reply
             then Normal (JObj [(js "products", JNum (Finite 5 0))])
             else Throw in
  exists p,
    Page.run true host_parse
      [Page.Change (js "a"); Page.Submit;
       Page.Settle 0 (Fulfilled {| candidates := None; text := Some reply |})]
      Page.initial = Some p /\
    products (Page.ui p) = JNum (Finite 5 0) /\
    renderStatus (Page.ui p) = Normal Nothing /\
    grid_test to_number_positive (Page.ui p) = Normal false.
Proof.
  cbn zeta. eexists. split; [vm_compute; reflexivity|].
  split; [|split]; reflexivity.
Qed.

(** The same defect with an array: for the reply [{"products":[null]}] the
    render throws on [product.imageUrl]. *)
Example null_product_breaks_render (to_number_positive : JsValue -> bool) :
  let parsed := JObj [(js "products", JArr [JNull])] in
  let st := fetchProducts (fun _ => Normal parsed) (js "a")
              (Fulfilled {| candidates := None; text := Some (js "x") |})
              App.initial in
  products st = JArr [JNull] /\
  render_results to_number_positive st = Throw.
Proof. split; reflexivity. Qed.

Lemma grid_test_array
      (to_number_positive : JsValue -> bool) (st : State)
      (items : list JsValue) :
  products st = JArr items ->
  grid_test to_number_positive st
  = Normal (match items with [] => false | _ :: _ => true end).
Proof.
  intros P. unfold grid_test. rewrite P.
  cbn [get_length greater_than_zero positive]. f_equal.
  destruct items; [reflexivity|]. apply Z.ltb_lt. cbn [length]. lia.
Qed.

(** X20: in every state the page can reach in which the products are an
    array, the status area shows one view, chosen in this order: the loader
    when loading; else the listening message when listening; else the error
    message when an error is set; else the no-products message when a search
    was made and the array is empty; else the prompt when no search was made;
    else nothing, which happens only when the array is not empty, that is
    when the test of the results grid holds. *)
Theorem renderStatus_on_arrays
        (supported : bool) (JSON_parse : jsstring -> Completion JsValue)
        (to_number_positive : JsValue -> bool)
        (p : Page.t) (items : list JsValue) :
  Page.reachable supported JSON_parse p ->
  products (Page.ui p) = JArr items ->
  let st := Page.ui p in
  (isLoading st = true -> renderStatus st = Normal Loader) /\
  (isLoading st = false -> isListening st = true ->
   renderStatus st = Normal ListeningMessage) /\
  (isLoading st = false -> isListening st = false ->
   forall m, error st = Some m -> renderStatus st = Normal (ErrorMessage m)) /\
  (isLoading st = false -> isListening st = false -> error st = None ->
   searched st = true -> items = [] ->
   renderStatus st = Normal NoProductsMessage) /\
  (isLoading st = false -> isListening st = false -> error st = None ->
   searched st = false -> renderStatus st = Normal PromptMessage) /\
  (isLoading st = false -> isListening st = false -> error st = None ->
   items <> [] -> renderStatus st = Normal Nothing) /\
  (renderStatus st = Normal Nothing ->
   items <> [] /\ grid_test to_number_positive st = Normal true).
Proof.
  intros R P. apply reachable_well_formed in R. destruct R as (E & _ & S).
  cbn zeta. set (st := Page.ui p) in *. unfold renderStatus, no_products.
  rewrite P. cbn [get_length strictly_zero is_zero].
  repeat apply conj.
  - now intros ->.
  - now intros -> ->.
  - intros -> -> m Em. rewrite Em. destruct m; [now destruct E|reflexivity].
  - intros -> -> -> -> ->. reflexivity.
  - intros -> -> -> ->. reflexivity.
  - intros -> -> -> NE. destruct (searched st).
    + destruct items; [now destruct NE|reflexivity].
    + destruct (S eq_refl) as [Pr _]. congruence.
  - destruct (isLoading st); [discriminate|].
    destruct (isListening st); [discriminate|].
    destruct (error st) as [[|c m]|]; try discriminate;
      (destruct (searched st); cbn; [|discriminate]);
      (destruct items as [|x items]; cbn; [discriminate|]); intros _;
      (split; [discriminate|]);
      exact (grid_test_array _ _ _ P).
Qed.

Lemma renderStatus_on_arrays_witness :
  renderStatus
    (fetch_settle (fun _ => Normal (JObj []))
       (Fulfilled {| candidates := None; text := Some (js "{}") |})
       (fetch_begin (setQuery (js "a") App.initial)))
  = Normal NoProductsMessage.
Proof.
  assert (R : Page.reachable true (fun _ => Normal (JObj []))
                {| Page.ui :=
                     fetch_settle (fun _ => Normal (JObj []))
                       (Fulfilled {| candidates := None;
                                     text := Some (js "{}") |})
                       (fetch_begin (setQuery (js "a") App.initial));
                   Page.in_flight := []; Page.recognitions := 0%nat |}).
  { exists [Page.Change (js "a"); Page.Submit;
            Page.Settle 0 (Fulfilled {| candidates := None;
                                        text := Some (js "{}") |})].
    vm_compute. reflexivity. }
  destruct (renderStatus_on_arrays true (fun _ => Normal (JObj []))
              (fun _ => false) _ [] R eq_refl)
    as (_ & _ & _ & Empty & _).
  apply Empty; reflexivity.
Defined.

(** ** One request at a time *)

(** While a request is loading or the microphone is listening, the text
    input and the search button are disabled: no text can be typed and no
    form submitted. *)
Lemma busy_controls_disabled
      (supported : bool) (JSON_parse : jsstring -> Completion JsValue)
      (p : Page.t) (value : jsstring) :
  isLoading (Page.ui p) = true \/ isListening (Page.ui p) = true ->
  input_disabled (Page.ui p) = true /\
  submit_disabled (Page.ui p) = true /\
  Page.step supported JSON_parse p (Page.Change value) = None /\
  Page.step supported JSON_parse p Page.Submit = None.
Proof.
  intros B. cbn [Page.step]. unfold input_disabled, submit_disabled.
  destruct B as [-> | ->]; rewrite ?orb_true_r; cbn; auto.
Qed.

(** [handleVoiceSearch] starts no recognition while listening or loading. *)
Lemma handleVoiceSearch_busy (supported : bool) (st : State) :
  isListening st = true \/ isLoading st = true ->
  snd (handleVoiceSearch supported st) = false.
Proof.
  intros B. unfold handleVoiceSearch. destruct supported; cbn; [|reflexivity].
  destruct B as [-> | ->]; rewrite ?orb_true_r; reflexivity.
Qed.

(** C5 fails on the result handler: [onresult] calls [fetchProducts]
    whatever the loading flag is.  After the speech has ended the controls
    are enabled again; a text search submitted then is still loading when the
    recognition delivers its result, and the second request is sent. *)
Theorem two_requests_in_flight
        (JSON_parse : jsstring -> Completion JsValue) :
  exists p,
    Page.run true JSON_parse
      [Page.ClickVoice; Page.SpeechEnd; Page.Change (js "a"); Page.Submit;
       Page.Result (js "b")]
      Page.initial = Some p /\
    Page.reachable true JSON_parse p /\
    Page.in_flight p = [{| searchQuery := js "a" |};
                        {| searchQuery := js "b" |}] /\
    Page.ui p = setQuery (js "b") (fetch_begin App.initial).
Proof.
  eexists. split; [vm_compute; reflexivity|].
  split; [|split; vm_compute; reflexivity].
  exists [Page.ClickVoice; Page.SpeechEnd; Page.Change (js "a"); Page.Submit;
          Page.Result (js "b")].
  vm_compute. reflexivity.
Qed.

(** The page reaches a call of [fetchProducts] with a blank query while the
    loading flag is set: a recognition that delivers a blank transcript
    while a text search is loading.  The call returns at once and the flag
    stays set, as the request of the text search is still in flight. *)
Example blank_result_while_loading
        (JSON_parse : jsstring -> Completion JsValue) :
  exists p p',
    Page.run true JSON_parse
      [Page.ClickVoice; Page.SpeechEnd; Page.Change (js "a"); Page.Submit]
      Page.initial = Some p /\
    isLoading (Page.ui p) = true /\
    Page.step true JSON_parse p (Page.Result (js " ")) = Some p' /\
    isLoading (Page.ui p') = true /\
    Page.in_flight p' = [{| searchQuery := js "a" |}].
Proof. do 2 eexists. repeat split. Qed.

(** * Further properties of the code *)

(** ** The payload of lines 69-73 *)

Section PayloadFacts.

Lemma trimStart_suffix (s : jsstring) :
  exists pre, s = pre ++ trimStart s /\ forallb is_white_space pre = true.
Proof.
  induction s as [|c s (pre & E & W)]; simpl.
  - now exists [].
  - destruct (is_white_space c) eqn:C.
    + exists (c :: pre). simpl. rewrite C, W. split; [now f_equal|reflexivity].
    + now exists [].
Qed.

Lemma trimEnd_prefix (s : jsstring) :
  exists post, s = trimEnd s ++ post /\ forallb is_white_space post = true.
Proof.
  unfold trimEnd. destruct (trimStart_suffix (rev s)) as (pre & E & W).
  exists (rev pre). split.
  - rewrite <- rev_app_distr, <- E. symmetry. apply rev_involutive.
  - rewrite forallb_forall in *. intros x I. apply W. now apply in_rev.
Qed.

Lemma trim_inside (s : jsstring) :
  exists pre post, s = pre ++ trim s ++ post.
Proof.
  destruct (trimStart_suffix s) as (pre & E & _).
  destruct (trimEnd_prefix (trimStart s)) as (post & E' & _).
  exists pre, post. unfold trim. now rewrite <- E', <- E.
Qed.

Lemma first_block_no_close (s g a b : jsstring) :
  Spec.first_block s g -> g <> a ++ fence_close ++ b.
Proof.
  intros (pre & post & B & Min) ->.
  destruct (Min pre a (b ++ fence_close ++ post)) as [L|[_ L]].
  - unfold Spec.block_at in *. rewrite B. now rewrite <- !app_assoc.
  - lia.
  - rewrite !length_app in L. change (length fence_close) with 4%nat in L. lia.
Qed.

End PayloadFacts.

(** X1: the text handed to [JSON.parse] is a contiguous piece of the reply
    text: nothing is added to it and nothing inside it is removed. *)
Theorem extract_payload_inside (text : jsstring) :
  exists pre post, text = pre ++ extract_payload text ++ post.
Proof.
  destruct (trim_inside text) as (pre & post & E).
  unfold extract_payload. destruct (re_match (trim text)) as [g|] eqn:M.
  - destruct (JsString.truthy g); [|now exists pre, post].
    apply re_match_sound in M. destruct M as (p & q & B & _).
    exists (pre ++ p ++ fence_open), (fence_close ++ q ++ post).
    rewrite E at 1. rewrite B. now rewrite <- !app_assoc.
  - now exists pre, post.
Qed.

(** X2: the parser receives the empty string exactly when the reply text is
    empty or all whitespace; a fenced block with empty content does not make
    the payload empty. *)
Theorem extract_payload_empty_iff_blank (text : jsstring) :
  extract_payload text = [] <-> Spec.blank text = true.
Proof.
  rewrite <- trim_blank. unfold extract_payload.
  destruct (re_match (trim text)) as [g|] eqn:M.
  - apply re_match_sound in M. destruct M as (p & q & B & _).
    assert (trim text <> []) as NE.
    { rewrite B. intros F. apply app_eq_nil in F. destruct F as [_ F].
      discriminate. }
    destruct g as [|c g]; cbn [JsString.truthy];
      (split; [intros F; congruence|]);
      destruct (trim text); cbn; congruence.
  - destruct (trim text); cbn; split; congruence.
Qed.

(** X3: when the payload is taken out of a fenced block (it then differs
    from the trimmed text), it stops before the first closing fence: no
    closing fence occurs inside it. *)
Theorem extract_payload_stops_at_fence (text a b : jsstring) :
  extract_payload text <> trim text ->
  extract_payload text <> a ++ fence_close ++ b.
Proof.
  unfold extract_payload. destruct (re_match (trim text)) as [g|] eqn:M.
  - destruct (JsString.truthy g); [|congruence].
    intros _. apply (first_block_no_close (trim text)).
    now apply re_match_sound.
  - congruence.
Qed.

Lemma extract_payload_stops_at_fence_witness :
  extract_payload (fence_open ++ js "{}" ++ fence_close ++ js "x" ++ fence_close)
  <> js "{}" ++ fence_close ++ js "x".
Proof.
  apply (extract_payload_stops_at_fence
           (fence_open ++ js "{}" ++ fence_close ++ js "x" ++ fence_close)
           (js "{}") (js "x")).
  vm_compute. discriminate.
Defined.

(** ** One call of [fetchProducts] *)

(** [fetchProducts] as one call: what it takes from the state before. *)
Lemma alone_overwrites
        (JSON_parse : jsstring -> Completion JsValue)
        (q : jsstring) (o : Outcome) (st1 st2 : State) :
  Spec.blank q = false ->
  query st1 = query st2 ->
  isListening st1 = isListening st2 ->
  fetchProducts JSON_parse q o st1 = fetchProducts JSON_parse q o st2 /\
  query (fetchProducts JSON_parse q o st1) = query st1 /\
  isListening (fetchProducts JSON_parse q o st1) = isListening st1 /\
  searched (fetchProducts JSON_parse q o st1) = true.
Proof.
  intros B Q L. unfold fetchProducts. rewrite truthy_trim, B. cbn [negb].
  assert (fetch_begin st1 = fetch_begin st2) as E
    by (unfold fetch_begin, setSearched, setSources, setProducts, setError,
        setIsLoading; cbn; now rewrite Q, L).
  split; [now rewrite E|]. clear E st2 Q L.
  unfold fetch_settle. destruct o as [response|]; cbn; [|auto].
  unfold on_fulfilled.
  destruct (store_sources_frame response (fetch_begin st1))
    as (_ & _ & L & S & Q & _).
  destruct (text response) as [t|]; cbn; [|rewrite Q, L, S; auto].
  destruct (store_products_frame JSON_parse (extract_payload t)
              (store_sources response (fetch_begin st1)))
    as (_ & _ & L' & S' & Q').
  rewrite Q', L', S', Q, L, S. auto.
Qed.




(** [fetchProducts] as one call: a payload without products. *)
Lemma alone_without_products
        (JSON_parse : jsstring -> Completion JsValue)
        (q : jsstring) (response : GenerateContentResponse) (t : jsstring)
        (v : JsValue) (p : option JsValue) (st : State) :
  Spec.blank q = false ->
  text response = Some t ->
  JSON_parse (extract_payload t) = Normal v ->
  get_products v = Normal p ->
  Json.truthy p = false ->
  let st' := fetchProducts JSON_parse q (Fulfilled response) st in
  products st' = JArr [] /\ error st' = None /\
  (isListening st = false -> renderStatus st' = Normal NoProductsMessage).
Proof.
  intros B T J G F. cbn zeta. unfold fetchProducts.
  rewrite truthy_trim, B. cbn [negb].
  unfold fetch_settle, on_fulfilled, store_products. rewrite T, J, G.
  destruct (store_sources_frame response (fetch_begin st))
    as (_ & _ & L & S & _ & E).
  assert (or_empty_array p = JArr []) as ->
    by (unfold or_empty_array; destruct p; [now rewrite F|reflexivity]).
  split; [reflexivity|]. split; [exact E|].
  intros NL. unfold renderStatus, no_products. cbn in *.
  now rewrite L, NL, E, S.
Qed.


(** [fetchProducts] as one call: the sources it leaves. *)
Lemma alone_sources
        (JSON_parse : jsstring -> Completion JsValue)
        (q : jsstring) (o : Outcome) (st : State) :
  Spec.blank q = false ->
  sources (fetchProducts JSON_parse q o st)
  = match o with
    | Fulfilled response =>
        match chunks_of response with
        | Some chunks => uniqueSources (webSources chunks)
        | None => []
        end
    | Rejected => []
    end.
Proof.
  intros B. destruct o as [response|]; [now apply sources_after_fetch|].
  unfold fetchProducts. now rewrite truthy_trim, B.
Qed.



(** *** A call whose reply comes before any other event *)

Lemma remove_last (A : Type) (l : list A) (a : A) :
  Page.remove_nth (length l) (l ++ [a]) = l.
Proof.
  induction l as [|x l IH]; cbn; [reflexivity|]. now rewrite IH.
Qed.

(** When the request of a call settles right after the call, with no other
    handler in between, the page ends in the state [fetchProducts] gives. *)
Lemma uninterrupted_call
      (supported : bool) (JSON_parse : jsstring -> Completion JsValue)
      (q : jsstring) (o : Outcome) (p p' : Page.t) :
  Spec.blank q = false ->
  Page.step supported JSON_parse (Page.call_fetchProducts q p)
    (Page.Settle (length (Page.in_flight p)) o) = Some p' ->
  Page.ui p' = fetchProducts JSON_parse q o (Page.ui p) /\
  Page.in_flight p' = Page.in_flight p.
Proof.
  intros B. unfold Page.call_fetchProducts, fetch_request, fetchProducts.
  rewrite truthy_trim, B. cbn [negb Page.step Page.in_flight Page.ui].
  rewrite nth_error_app2, Nat.sub_diag by lia. cbn [nth_error].
  intros [= <-]. cbn. now rewrite remove_last.
Qed.

(** X4: when the reply of a search arrives before any other event (its
    request settles right after the call), the search replaces what the
    previous one left: the state after the reply depends on the state before
    the call only through the text of the input and the listening flag, both
    of which are kept, and the searched flag is set. *)
Theorem uninterrupted_search_overwrites
        (supported : bool) (JSON_parse : jsstring -> Completion JsValue)
        (q : jsstring) (o : Outcome) (p1 p2 p1' p2' : Page.t) :
  Spec.blank q = false ->
  Page.step supported JSON_parse (Page.call_fetchProducts q p1)
    (Page.Settle (length (Page.in_flight p1)) o) = Some p1' ->
  Page.step supported JSON_parse (Page.call_fetchProducts q p2)
    (Page.Settle (length (Page.in_flight p2)) o) = Some p2' ->
  query (Page.ui p1) = query (Page.ui p2) ->
  isListening (Page.ui p1) = isListening (Page.ui p2) ->
  Page.ui p1' = Page.ui p2' /\
  query (Page.ui p1') = query (Page.ui p1) /\
  isListening (Page.ui p1') = isListening (Page.ui p1) /\
  searched (Page.ui p1') = true.
Proof.
  intros B S1 S2 Q L.
  destruct (uninterrupted_call _ _ _ _ _ _ B S1) as [-> _].
  destruct (uninterrupted_call _ _ _ _ _ _ B S2) as [-> _].
  now apply alone_overwrites.
Qed.

Lemma uninterrupted_search_overwrites_witness :
  fetchProducts (fun _ => Throw) (js "mouse") Rejected
    (setProducts (JArr [JNull]) (setError (Some msg_parse) App.initial))
  = fetchProducts (fun _ => Throw) (js "mouse") Rejected App.initial.
Proof.
  apply (uninterrupted_search_overwrites true (fun _ => Throw)
           (js "mouse") Rejected
           {| Page.ui := setProducts (JArr [JNull])
                           (setError (Some msg_parse) App.initial);
              Page.in_flight := []; Page.recognitions := 0%nat |}
           Page.initial
           {| Page.ui := fetchProducts (fun _ => Throw) (js "mouse") Rejected
                           (setProducts (JArr [JNull])
                              (setError (Some msg_parse) App.initial));
              Page.in_flight := []; Page.recognitions := 0%nat |}
           {| Page.ui := fetchProducts (fun _ => Throw) (js "mouse") Rejected
                           App.initial;
              Page.in_flight := []; Page.recognitions := 0%nat |});
    reflexivity.
Defined.



(** X6: when the reply of a search arrives before any other event and its
    payload parses to a value whose [products] is missing or falsy (a number,
    a string, an array, an object without that key), the search is an empty
    result, not an error: the products are empty, the error is null, and,
    unless voice listening is on, the status area shows the no-products
    message. *)
Theorem uninterrupted_search_without_products
        (supported : bool) (JSON_parse : jsstring -> Completion JsValue)
        (q : jsstring) (response : GenerateContentResponse) (t : jsstring)
        (v : JsValue) (f : option JsValue) (p p' : Page.t) :
  Spec.blank q = false ->
  Page.step supported JSON_parse (Page.call_fetchProducts q p)
    (Page.Settle (length (Page.in_flight p)) (Fulfilled response)) = Some p' ->
  text response = Some t ->
  JSON_parse (extract_payload t) = Normal v ->
  get_products v = Normal f ->
  Json.truthy f = false ->
  products (Page.ui p') = JArr [] /\ error (Page.ui p') = None /\
  (isListening (Page.ui p) = false ->
   renderStatus (Page.ui p') = Normal NoProductsMessage).
Proof.
  intros B S T J G F. destruct (uninterrupted_call _ _ _ _ _ _ B S) as [-> _].
  now apply (alone_without_products JSON_parse q response t v f).
Qed.

Lemma uninterrupted_search_without_products_witness :
  renderStatus
    (fetchProducts (fun _ => Normal (JNum (Finite 5 0))) (js "mouse")
       (Fulfilled {| candidates := None; text := Some (js "5") |})
       (setError (Some msg_request) App.initial))
  = Normal NoProductsMessage.
Proof.
  apply (uninterrupted_search_without_products true
           (fun _ => Normal (JNum (Finite 5 0))) (js "mouse")
           {| candidates := None; text := Some (js "5") |} (js "5")
           (JNum (Finite 5 0)) None
           {| Page.ui := setError (Some msg_request) App.initial;
              Page.in_flight := []; Page.recognitions := 0%nat |}
           {| Page.ui :=
                fetchProducts (fun _ => Normal (JNum (Finite 5 0))) (js "mouse")
                  (Fulfilled {| candidates := None; text := Some (js "5") |})
                  (setError (Some msg_request) App.initial);
              Page.in_flight := []; Page.recognitions := 0%nat |});
    reflexivity.
Defined.

(** X7: when the reply of a search arrives before any other event, the
    sources on display afterwards depend on the grounding chunks of the reply
    alone: they are stored all the same when the reply has no text or its
    payload does not parse, and a rejected call leaves none. *)
Theorem uninterrupted_search_sources
        (supported : bool) (JSON_parse : jsstring -> Completion JsValue)
        (q : jsstring) (o : Outcome) (p p' : Page.t) :
  Spec.blank q = false ->
  Page.step supported JSON_parse (Page.call_fetchProducts q p)
    (Page.Settle (length (Page.in_flight p)) o) = Some p' ->
  sources (Page.ui p')
  = match o with
    | Fulfilled response =>
        match chunks_of response with
        | Some chunks => uniqueSources (webSources chunks)
        | None => []
        end
    | Rejected => []
    end.
Proof.
  intros B S. destruct (uninterrupted_call _ _ _ _ _ _ B S) as [-> _].
  now apply alone_sources.
Qed.

Lemma uninterrupted_search_sources_witness :
  sources
    (fetchProducts (fun _ => Throw) (js "mouse")
       (Fulfilled
          {| candidates :=
               Some [{| groundingMetadata :=
                          Some {| groundingChunks :=
                                    Some [{| web := Some {| web_uri := Some (js "a");
                                                            web_title := None |} |}]
                               |} |}];
             text := None |})
       (setError (Some msg_parse) App.initial))
  = [{| uri := js "a"; title := js "a" |}].
Proof.
  apply (uninterrupted_search_sources true (fun _ => Throw) (js "mouse")
           (Fulfilled
              {| candidates :=
                   Some [{| groundingMetadata :=
                              Some {| groundingChunks :=
                                        Some [{| web := Some {| web_uri := Some (js "a");
                                                                web_title := None |} |}]
                                   |} |}];
                 text := None |})
           {| Page.ui := setError (Some msg_parse) App.initial;
              Page.in_flight := []; Page.recognitions := 0%nat |}
           {| Page.ui :=
                fetchProducts (fun _ => Throw) (js "mouse")
                  (Fulfilled
                     {| candidates :=
                          Some [{| groundingMetadata :=
                                     Some {| groundingChunks :=
                                               Some [{| web := Some {| web_uri := Some (js "a");
                                                                       web_title := None |} |}]
                                          |} |}];
                        text := None |})
                  (setError (Some msg_parse) App.initial);
              Page.in_flight := []; Page.recognitions := 0%nat |});
    reflexivity.
Defined.

(** ** Deduplication of the sources (line 65) *)

Section DedupFacts.

Context {V : Type}.

Lemma has_false (k : jsstring) (m : list (jsstring * V)) :
  JsMap.has k m = false <-> ~ In k (JsMap.keys m).
Proof.
  unfold JsMap.has. split.
  - intros H I. assert (existsb (JsString.eqb k) (JsMap.keys m) = true) as T
      by (apply existsb_exists; exists k; split; [assumption|apply eqb_refl]).
    congruence.
  - intros NI. destruct (existsb (JsString.eqb k) (JsMap.keys m)) eqn:X;
      [|reflexivity].
    apply existsb_exists in X. destruct X as (x & I & E).
    apply eqb_eq in E. now subst x.
Qed.

Lemma set_fresh (k : jsstring) (v : V) (m : list (jsstring * V)) :
  JsMap.has k m = false -> JsMap.set k v m = m ++ [(k, v)].
Proof.
  unfold JsMap.has. induction m as [|[k' v'] m IH]; simpl; [reflexivity|].
  destruct (JsString.eqb k k'); simpl; [discriminate|].
  intros H. now rewrite IH.
Qed.

Lemma fold_set_fresh (entries m : list (jsstring * V)) :
  NoDup (JsMap.keys m ++ JsMap.keys entries) ->
  fold_left (fun m e => JsMap.set (fst e) (snd e) m) entries m = m ++ entries.
Proof.
  revert m. induction entries as [|[k v] entries IH]; intros m ND; simpl.
  - now rewrite app_nil_r.
  - rewrite set_fresh.
    + rewrite IH; [now rewrite <- app_assoc|].
      unfold JsMap.keys in *. rewrite map_app. simpl.
      now rewrite <- app_assoc.
    + apply has_false. apply NoDup_remove_2 in ND. intros I. apply ND.
      apply in_or_app. now left.
Qed.

End DedupFacts.

Lemma first_occurrences_length (l : list jsstring) :
  (length (Spec.first_occurrences l) <= length l)%nat.
Proof.
  induction l as [|a l IH]; simpl; [lia|].
  pose proof (filter_length_le (fun y => negb (JsString.eqb y a))
                (Spec.first_occurrences l)). lia.
Qed.

(** X8: deduplication loses no uri and invents none, and never makes the
    list longer: the uris of [uniqueSources ws] are those of [ws]. *)
Theorem uniqueSources_same_uris (ws : list Source) :
  (forall u, In u (map uri (uniqueSources ws)) <-> In u (map uri ws)) /\
  (forall s, In s (uniqueSources ws) -> In s ws) /\
  (length (uniqueSources ws) <= length ws)%nat.
Proof.
  split; [|split].
  - intros u. rewrite uniqueSources_uris. apply first_occurrences_In.
  - intros s I. now apply uniqueSources_last, last_with_uri_In in I.
  - rewrite <- (length_map uri (uniqueSources ws)), uniqueSources_uris.
    rewrite <- (length_map uri ws). apply first_occurrences_length.
Qed.

Lemma uniqueSources_NoDup_id (ws : list Source) :
  NoDup (map uri ws) -> uniqueSources ws = ws.
Proof.
  intros ND. unfold uniqueSources, JsMap.of_entries, JsMap.values.
  rewrite fold_set_fresh.
  - cbn [app]. rewrite map_map. cbn. apply map_id.
  - cbn [JsMap.keys map app]. unfold JsMap.keys. now rewrite map_map.
Qed.

(** X9: sources whose uris are already distinct pass through deduplication
    unchanged, in their order. *)
Theorem uniqueSources_distinct (ws : list Source) :
  NoDup (map uri ws) -> uniqueSources ws = ws.
Proof.
  exact (uniqueSources_NoDup_id ws).
Qed.

Lemma uniqueSources_distinct_witness :
  uniqueSources [{| uri := js "b"; title := js "x" |};
                 {| uri := js "a"; title := js "x" |}]
  = [{| uri := js "b"; title := js "x" |};
     {| uri := js "a"; title := js "x" |}].
Proof.
  apply uniqueSources_distinct.
  repeat constructor; cbn; intuition discriminate.
Defined.

(** X10: deduplicating twice is deduplicating once. *)
Theorem uniqueSources_idempotent (ws : list Source) :
  uniqueSources (uniqueSources ws) = uniqueSources ws.
Proof.
  apply uniqueSources_NoDup_id. rewrite uniqueSources_uris.
  apply first_occurrences_NoDup.
Qed.

(** ** What the page keeps, whatever the events *)

Section PageInvariants.

Variable supported : bool.
Variable JSON_parse : jsstring -> Completion JsValue.

Lemma fetch_settle_frame (o : Outcome) (st : State) :
  let st' := fetch_settle JSON_parse o st in
  query st' = query st /\ isListening st' = isListening st /\
  isLoading st' = false /\
  (sources st' = sources st \/
   exists chunks, sources st' = uniqueSources (webSources chunks)).
Proof.
  destruct o as [response|]; cbn; [|auto]. unfold on_fulfilled.
  assert (sources (store_sources response st) = sources st \/
          exists chunks, sources (store_sources response st)
                         = uniqueSources (webSources chunks)) as Src.
  { unfold store_sources. destruct (chunks_of response) as [chunks|]; cbn;
      [right; now exists chunks|now left]. }
  destruct (store_sources_frame response st) as (_ & _ & L & _ & Q & _).
  destruct (text response) as [t|]; cbn; [|rewrite Q, L; auto].
  destruct (store_products_frame JSON_parse (extract_payload t)
              (store_sources response st)) as (S' & _ & L' & _ & Q').
  rewrite Q', L', S', Q, L. auto.
Qed.

(** The three kinds of steps: a handler that touches neither the results
    nor the requests; a call of [fetchProducts] that reaches its [await]; a
    reply. *)
Lemma step_shape (p p' : Page.t) (e : Page.Event) :
  Page.step supported JSON_parse p e = Some p' ->
  (Page.in_flight p' = Page.in_flight p /\
   products (Page.ui p') = products (Page.ui p) /\
   sources (Page.ui p') = sources (Page.ui p) /\
   isLoading (Page.ui p') = isLoading (Page.ui p) /\
   searched (Page.ui p') = searched (Page.ui p) /\
   (error (Page.ui p') = error (Page.ui p) \/
    error (Page.ui p') = None \/
    error (Page.ui p') = Some msg_unsupported \/
    exists event_error,
      error (Page.ui p') = Some (msg_recognition event_error))) \/
  (exists q st0,
      Spec.blank q = false /\ Page.ui p' = fetch_begin st0 /\
      Page.in_flight p' = Page.in_flight p ++ [{| searchQuery := q |}]) \/
  (exists i o r,
      nth_error (Page.in_flight p) i = Some r /\
      Page.ui p' = fetch_settle JSON_parse o (Page.ui p) /\
      Page.in_flight p' = Page.remove_nth i (Page.in_flight p)).
Proof.
  assert (forall q p0,
             Page.in_flight p0 = Page.in_flight p ->
             products (Page.ui p0) = products (Page.ui p) ->
             sources (Page.ui p0) = sources (Page.ui p) ->
             isLoading (Page.ui p0) = isLoading (Page.ui p) ->
             searched (Page.ui p0) = searched (Page.ui p) ->
             error (Page.ui p0) = error (Page.ui p) ->
             Some (Page.call_fetchProducts q p0) = Some p' ->
             (Page.in_flight p' = Page.in_flight p /\
              products (Page.ui p') = products (Page.ui p) /\
              sources (Page.ui p') = sources (Page.ui p) /\
              isLoading (Page.ui p') = isLoading (Page.ui p) /\
              searched (Page.ui p') = searched (Page.ui p) /\
              (error (Page.ui p') = error (Page.ui p) \/
               error (Page.ui p') = None \/
               error (Page.ui p') = Some msg_unsupported \/
               exists event_error,
                 error (Page.ui p') = Some (msg_recognition event_error))) \/
             (exists q st0,
                 Spec.blank q = false /\ Page.ui p' = fetch_begin st0 /\
                 Page.in_flight p' = Page.in_flight p ++ [{| searchQuery := q |}]) \/
             (exists i o r,
                 nth_error (Page.in_flight p) i = Some r /\
                 Page.ui p' = fetch_settle JSON_parse o (Page.ui p) /\
                 Page.in_flight p' = Page.remove_nth i (Page.in_flight p)))
    as Call.
  { intros q p0 F Pr So Lo Se Er. unfold Page.call_fetchProducts, fetch_request.
    rewrite truthy_trim. destruct (Spec.blank q) eqn:B; cbn [negb];
      intros [= <-].
    - left. auto 10.
    - right. left. exists q, (Page.ui p0). cbn. rewrite F. auto. }
  destruct e; cbn [Page.step].
  - destruct (input_disabled (Page.ui p)); intros [= <-]. left. cbn. auto 10.
  - destruct (submit_disabled (Page.ui p)); [discriminate|].
    apply Call; reflexivity.
  - destruct (voice_disabled (Page.ui p)); [discriminate|].
    unfold handleVoiceSearch. destruct supported; cbn [negb].
    + destruct (isListening (Page.ui p) || isLoading (Page.ui p));
        intros [= <-]; left; cbn; auto 10.
    + intros [= <-]. left. cbn -[msg_unsupported]. auto 10.
  - destruct (Page.recognitions p); intros [= <-]. left. cbn. auto 10.
  - destruct (Page.recognitions p); [discriminate|].
    apply Call; reflexivity.
  - destruct (Page.recognitions p); intros [= <-]. left.
    cbn -[msg_recognition]. repeat split. right. right. right.
    now exists event_error.
  - destruct (nth_error (Page.in_flight p) i) as [r|] eqn:N; intros [= <-].
    right. right. exists i, o, r. auto.
Qed.

Lemma run_invariant (P : Page.t -> Prop) :
  (forall p e p', P p -> Page.step supported JSON_parse p e = Some p' -> P p') ->
  forall events p p',
    P p -> Page.run supported JSON_parse events p = Some p' -> P p'.
Proof.
  intros Step events. induction events as [|e events IH]; intros p p' H; cbn.
  - now intros [= <-].
  - destruct (Page.step supported JSON_parse p e) as [p1|] eqn:S;
      [|discriminate].
    apply IH. exact (Step _ _ _ H S).
Qed.

End PageInvariants.

Section PageTheorems.

Variable supported : bool.
Variable JSON_parse : jsstring -> Completion JsValue.

Lemma source_label_not_empty (s : Source) :
  title s <> [] -> source_label s <> [].
Proof.
  unfold source_label. destruct (50 <? length (title s))%nat; [|auto].
  intros _ F. apply app_eq_nil in F. destruct F as [_ F]. discriminate.
Qed.

Lemma web_source_visible (chunks : list GroundingChunk) (s : Source) :
  In s (uniqueSources (webSources chunks)) ->
  uri s <> [] /\ title s <> [] /\ source_label s <> [].
Proof.
  intros I. apply uniqueSources_last, last_with_uri_In in I.
  destruct I as [I _]. apply webSources_In in I.
  destruct I as (chunk & _ & T). apply to_source_inv in T.
  destruct T as (w & _ & _ & NE & Ti).
  assert (title s <> []) as NT.
  { rewrite Ti. destruct (web_title w) as [[|c t]|]; cbn; try assumption.
    discriminate. }
  auto using source_label_not_empty.
Qed.

Lemma reachable_sources (p : Page.t) :
  Page.reachable supported JSON_parse p ->
  NoDup (map uri (sources (Page.ui p))) /\
  forall s, In s (sources (Page.ui p)) ->
            uri s <> [] /\ title s <> [] /\ source_label s <> [].
Proof.
  intros [events R]. revert R.
  apply (run_invariant supported JSON_parse
           (fun p => NoDup (map uri (sources (Page.ui p))) /\
                     forall s, In s (sources (Page.ui p)) ->
                               uri s <> [] /\ title s <> [] /\
                               source_label s <> [])).
  - intros p0 e p1 [ND V] S. apply step_shape in S.
    destruct S as [(_ & _ & -> & _)|[(q & st0 & _ & -> & _)|(i & o & r & _ & -> & _)]].
    + now split.
    + cbn. split; [constructor|intros s []].
    + destruct (fetch_settle_frame JSON_parse o (Page.ui p0))
        as (_ & _ & _ & [-> |[chunks ->]]); [now split|].
      split; [|apply web_source_visible].
      rewrite uniqueSources_uris. apply first_occurrences_NoDup.
  - cbn. split; [constructor|intros s []].
Qed.

Lemma reachable_quiet (p : Page.t) :
  Page.reachable supported JSON_parse p ->
  (searched (Page.ui p) = false ->
   products (Page.ui p) = JArr [] /\ sources (Page.ui p) = [] /\
   isLoading (Page.ui p) = false /\ Page.in_flight p = []) /\
  (isLoading (Page.ui p) = true ->
   Page.in_flight p <> [] /\ products (Page.ui p) = JArr [] /\
   sources (Page.ui p) = [] /\ searched (Page.ui p) = true).
Proof.
  intros [events R]. revert R.
  apply (run_invariant supported JSON_parse
           (fun p =>
              (searched (Page.ui p) = false ->
               products (Page.ui p) = JArr [] /\ sources (Page.ui p) = [] /\
               isLoading (Page.ui p) = false /\ Page.in_flight p = []) /\
              (isLoading (Page.ui p) = true ->
               Page.in_flight p <> [] /\ products (Page.ui p) = JArr [] /\
               sources (Page.ui p) = [] /\ searched (Page.ui p) = true))).
  - intros p0 e p1 [A B] S. apply step_shape in S.
    destruct S as [(F & Pr & So & Lo & Se & _)
                  |[(q & st0 & _ & U & F)|(i & o & r & N & U & F)]].
    + rewrite F, Pr, So, Lo, Se. now split.
    + rewrite U, F. cbn. split; [discriminate|]. intros _.
      split; [|auto]. intros E. apply app_eq_nil in E. destruct E as [_ E].
      discriminate.
    + destruct (fetch_settle_frame JSON_parse o (Page.ui p0))
        as (_ & _ & L & _).
      destruct (fetch_settle_state JSON_parse o (Page.ui p0)) as (Se & _ & _).
      rewrite U, Se, L. split; [|discriminate].
      intros NS. destruct (A NS) as (_ & _ & _ & E). rewrite E in N.
      now destruct i.
  - cbn. split; [auto|discriminate].
Qed.

End PageTheorems.

(** X11: in every state the page can reach, the sources rendered have
    distinct uris, and each has a uri, a title and a link label that are not
    empty. *)
Theorem reachable_sources_visible
        (supported : bool) (JSON_parse : jsstring -> Completion JsValue)
        (p : Page.t) :
  Page.reachable supported JSON_parse p ->
  NoDup (map uri (sources (Page.ui p))) /\
  forall s, In s (sources (Page.ui p)) ->
            uri s <> [] /\ title s <> [] /\ source_label s <> [].
Proof. apply reachable_sources. Qed.

Lemma reachable_sources_visible_witness :
  NoDup
    (map uri
       (sources
          (fetch_settle (fun _ => Throw)
             (Fulfilled
                {| candidates :=
                     Some [{| groundingMetadata :=
                                Some {| groundingChunks :=
                                          Some [{| web := Some {| web_uri := Some (js "u");
                                                                  web_title := None |} |};
                                                {| web := Some {| web_uri := Some (js "v");
                                                                  web_title := Some (js "t") |} |};
                                                {| web := Some {| web_uri := Some (js "u");
                                                                  web_title := Some (js "w") |} |}]
                                     |} |}];
                   text := None |})
             (fetch_begin (setQuery (js "a") App.initial))))).
Proof.
  set (reply := {| candidates :=
                     Some [{| groundingMetadata :=
                                Some {| groundingChunks :=
                                          Some [{| web := Some {| web_uri := Some (js "u");
                                                                  web_title := None |} |};
                                                {| web := Some {| web_uri := Some (js "v");
                                                                  web_title := Some (js "t") |} |};
                                                {| web := Some {| web_uri := Some (js "u");
                                                                  web_title := Some (js "w") |} |}]
                                     |} |}];
                   text := None |}).
  apply (reachable_sources_visible true (fun _ => Throw)
           {| Page.ui := fetch_settle (fun _ => Throw) (Fulfilled reply)
                           (fetch_begin (setQuery (js "a") App.initial));
              Page.in_flight := []; Page.recognitions := 0%nat |}).
  exists [Page.Change (js "a"); Page.Submit; Page.Settle 0 (Fulfilled reply)].
  vm_compute. reflexivity.
Defined.

(** X12: in every state the page can reach, the loading flag is set only
    while a request is in flight, and then no products and no sources of an
    earlier search are on display: the results grid is not rendered. *)
Theorem reachable_loading_is_clean
        (supported : bool) (JSON_parse : jsstring -> Completion JsValue)
        (to_number_positive : JsValue -> bool) (p : Page.t) :
  Page.reachable supported JSON_parse p ->
  isLoading (Page.ui p) = true ->
  Page.in_flight p <> [] /\ products (Page.ui p) = JArr [] /\
  sources (Page.ui p) = [] /\ searched (Page.ui p) = true /\
  grid_test to_number_positive (Page.ui p) = Normal false.
Proof.
  intros R L. destruct (reachable_quiet supported JSON_parse p R) as [_ B].
  destruct (B L) as (F & Pr & So & Se). repeat split; try assumption.
  unfold grid_test. now rewrite Pr.
Qed.

Lemma reachable_loading_is_clean_witness :
  Page.in_flight
    {| Page.ui := fetch_begin (setQuery (js "a") App.initial);
       Page.in_flight := [{| searchQuery := js "a" |}];
       Page.recognitions := 0%nat |} <> [].
Proof.
  apply (reachable_loading_is_clean true (fun _ => Throw) (fun _ => false)).
  - exists [Page.Change (js "a"); Page.Submit]. vm_compute. reflexivity.
  - reflexivity.
Defined.

(** X13: in every state the page can reach, as long as no search was made
    there is no request in flight, the loading flag is clear, and neither
    products nor sources are on display: the results grid is not rendered. *)
Theorem reachable_before_first_search
        (supported : bool) (JSON_parse : jsstring -> Completion JsValue)
        (to_number_positive : JsValue -> bool) (p : Page.t) :
  Page.reachable supported JSON_parse p ->
  searched (Page.ui p) = false ->
  Page.in_flight p = [] /\ isLoading (Page.ui p) = false /\
  products (Page.ui p) = JArr [] /\ sources (Page.ui p) = [] /\
  grid_test to_number_positive (Page.ui p) = Normal false.
Proof.
  intros R S. destruct (reachable_quiet supported JSON_parse p R) as [A _].
  destruct (A S) as (Pr & So & L & F). repeat split; try assumption.
  unfold grid_test. now rewrite Pr.
Qed.

Lemma reachable_before_first_search_witness :
  Page.in_flight
    {| Page.ui := setError (Some msg_unsupported) App.initial;
       Page.in_flight := []; Page.recognitions := 0%nat |} = [].
Proof.
  apply (reachable_before_first_search false (fun _ => Throw)
           (fun _ => false)).
  - exists [Page.ClickVoice]. vm_compute. reflexivity.
  - reflexivity.
Defined.

(** X14: the searched flag is never cleared: once a search was started,
    whatever events follow, the initial prompt is not shown again. *)
Theorem prompt_never_returns
        (supported : bool) (JSON_parse : jsstring -> Completion JsValue)
        (events : list Page.Event) (p p' : Page.t) :
  searched (Page.ui p) = true ->
  Page.run supported JSON_parse events p = Some p' ->
  searched (Page.ui p') = true /\
  renderStatus (Page.ui p') <> Normal PromptMessage.
Proof.
  intros S R.
  assert (searched (Page.ui p') = true) as S'.
  { revert S R.
    apply (run_invariant supported JSON_parse
             (fun p => searched (Page.ui p) = true)).
    intros p0 e p1 H St. apply step_shape in St.
    destruct St as [(_ & _ & _ & _ & -> & _)
                   |[(q & st0 & _ & -> & _)|(i & o & r & _ & -> & _)]];
      [assumption|reflexivity|].
    now destruct (fetch_settle_state JSON_parse o (Page.ui p0)) as (-> & _). }
  split; [assumption|]. unfold renderStatus. rewrite S'.
  destruct (isLoading (Page.ui p')); [discriminate|].
  destruct (isListening (Page.ui p')); [discriminate|].
  destruct (error (Page.ui p')) as [[|c m]|]; try discriminate;
    cbn; destruct (no_products (Page.ui p')) as [[|]|]; discriminate.
Qed.

Lemma prompt_never_returns_witness :
  renderStatus
    (fetch_settle (fun _ => Throw) Rejected
       (fetch_begin (setQuery (js "a") App.initial)))
  <> Normal PromptMessage.
Proof.
  apply (prompt_never_returns true (fun _ => Throw)
           [Page.Settle 0 Rejected]
           {| Page.ui := fetch_begin (setQuery (js "a") App.initial);
              Page.in_flight := [{| searchQuery := js "a" |}];
              Page.recognitions := 0%nat |}
           {| Page.ui := fetch_settle (fun _ => Throw) Rejected
                           (fetch_begin (setQuery (js "a") App.initial));
              Page.in_flight := []; Page.recognitions := 0%nat |});
    reflexivity.
Defined.

(** X15: the form can be submitted only with a query that is not blank (the
    button is disabled otherwise), so a submission always passes the guard of
    line 40: it sends one request, for the text of the input as typed, and
    sets the loading flag. *)
Theorem submit_sends_the_query
        (supported : bool) (JSON_parse : jsstring -> Completion JsValue)
        (p p' : Page.t) :
  Page.step supported JSON_parse p Page.Submit = Some p' ->
  Spec.blank (query (Page.ui p)) = false /\
  isLoading (Page.ui p) = false /\ isListening (Page.ui p) = false /\
  Page.in_flight p'
  = Page.in_flight p ++ [{| searchQuery := query (Page.ui p) |}] /\
  Page.ui p' = fetch_begin (Page.ui p).
Proof.
  cbn [Page.step]. unfold submit_disabled. rewrite truthy_trim, negb_involutive.
  destruct (isLoading (Page.ui p)); [discriminate|].
  destruct (isListening (Page.ui p)); [discriminate|].
  destruct (Spec.blank (query (Page.ui p))) eqn:B; [discriminate|].
  cbn [orb]. unfold Page.handleTextSearch, Page.call_fetchProducts, fetch_request.
  rewrite truthy_trim, B. cbn [negb]. intros [= <-]. cbn. auto.
Qed.

Lemma submit_sends_the_query_witness :
  Spec.blank (query (setQuery (js "a") App.initial)) = false.
Proof.
  apply (submit_sends_the_query true (fun _ => Throw)
           {| Page.ui := setQuery (js "a") App.initial;
              Page.in_flight := []; Page.recognitions := 0%nat |}
           {| Page.ui := fetch_begin (setQuery (js "a") App.initial);
              Page.in_flight := [{| searchQuery := js "a" |}];
              Page.recognitions := 0%nat |}).
  reflexivity.
Defined.

(** X16: in every state the page can reach, the error is null or one of the
    four messages of the component: the parse error, the request error, the
    missing speech support, or the recognition error with its code. *)
Theorem reachable_error_messages
        (supported : bool) (JSON_parse : jsstring -> Completion JsValue)
        (p : Page.t) :
  Page.reachable supported JSON_parse p ->
  error (Page.ui p) = None \/
  error (Page.ui p) = Some msg_parse \/
  error (Page.ui p) = Some msg_request \/
  error (Page.ui p) = Some msg_unsupported \/
  exists event_error, error (Page.ui p) = Some (msg_recognition event_error).
Proof.
  intros [events R]. revert R.
  apply (run_invariant supported JSON_parse
           (fun p =>
              error (Page.ui p) = None \/
              error (Page.ui p) = Some msg_parse \/
              error (Page.ui p) = Some msg_request \/
              error (Page.ui p) = Some msg_unsupported \/
              exists event_error,
                error (Page.ui p) = Some (msg_recognition event_error))).
  - intros p0 e p1 H S. apply step_shape in S.
    destruct S as [(_ & _ & _ & _ & _ & [-> |[-> |[-> |[x ->]]]])
                  |[(q & st0 & _ & -> & _)|(i & o & r & _ & -> & _)]];
      eauto 6.
    destruct (fetch_settle_state JSON_parse o (Page.ui p0))
      as (_ & [-> |[-> | ->]] & _); auto.
  - now left.
Qed.

Lemma reachable_error_messages_witness :
  error (onerror (js "no-speech")
           (setError None (setIsListening true App.initial))) = None \/
  error (onerror (js "no-speech")
           (setError None (setIsListening true App.initial)))
  = Some msg_parse \/
  error (onerror (js "no-speech")
           (setError None (setIsListening true App.initial)))
  = Some msg_request \/
  error (onerror (js "no-speech")
           (setError None (setIsListening true App.initial)))
  = Some msg_unsupported \/
  exists event_error,
    error (onerror (js "no-speech")
             (setError None (setIsListening true App.initial)))
    = Some (msg_recognition event_error).
Proof.
  apply (reachable_error_messages true (fun _ => Throw)
           {| Page.ui := onerror (js "no-speech")
                           (setError None (setIsListening true App.initial));
              Page.in_flight := []; Page.recognitions := 0%nat |}).
  exists [Page.ClickVoice; Page.RecognitionError (js "no-speech")].
  vm_compute. reflexivity.
Defined.

Lemma remove_nth_length (A : Type) (i : nat) (l : list A) (a : A) :
  nth_error l i = Some a -> S (length (Page.remove_nth i l)) = length l.
Proof.
  revert i. induction l as [|x l IH]; intros [|i]; cbn; try discriminate.
  - reflexivity.
  - intros N. now rewrite (IH i N).
Qed.

(** X17: every reply clears the loading flag and takes one request out of
    those in flight, whatever else is pending: when two requests were in
    flight, the first reply leaves the page not loading, with its text input
    enabled unless listening, while a request is still in flight. *)
Theorem reply_clears_loading
        (supported : bool) (JSON_parse : jsstring -> Completion JsValue)
        (p p' : Page.t) (i : nat) (o : Outcome) :
  Page.step supported JSON_parse p (Page.Settle i o) = Some p' ->
  isLoading (Page.ui p') = false /\
  S (length (Page.in_flight p')) = length (Page.in_flight p) /\
  input_disabled (Page.ui p') = isListening (Page.ui p) /\
  ((2 <= length (Page.in_flight p))%nat -> Page.in_flight p' <> []).
Proof.
  cbn [Page.step].
  destruct (nth_error (Page.in_flight p) i) as [r|] eqn:N; intros [= <-].
  cbn [Page.ui Page.in_flight].
  destruct (fetch_settle_frame JSON_parse o (Page.ui p)) as (_ & Li & L & _).
  pose proof (remove_nth_length _ _ _ _ N) as Len.
  unfold input_disabled. rewrite L, Li. repeat split; try assumption.
  intros Two E. rewrite E in Len. cbn in Len. lia.
Qed.

Lemma reply_clears_loading_witness :
  isLoading
    (fetch_settle (fun _ => Throw) Rejected
       (setQuery (js "b") (fetch_begin App.initial))) = false.
Proof.
  apply (reply_clears_loading true (fun _ => Throw)
           {| Page.ui := setQuery (js "b") (fetch_begin App.initial);
              Page.in_flight := [{| searchQuery := js "a" |};
                                 {| searchQuery := js "b" |}];
              Page.recognitions := 0%nat |}
           {| Page.ui := fetch_settle (fun _ => Throw) Rejected
                           (setQuery (js "b") (fetch_begin App.initial));
              Page.in_flight := [{| searchQuery := js "b" |}];
              Page.recognitions := 0%nat |}
           0%nat Rejected).
  reflexivity.
Defined.

(** X18: the status area shows an error message exactly when the page is
    neither loading nor listening and the error is a string that is not
    empty, and the message shown is that string: an error raised while a
    request is loading stays hidden until the loading flag is cleared. *)
Theorem error_shown_iff (st : State) (m : jsstring) :
  renderStatus st = Normal (ErrorMessage m) <->
  isLoading st = false /\ isListening st = false /\
  error st = Some m /\ m <> [].
Proof.
  unfold renderStatus.
  destruct (isLoading st); [split; [discriminate|intros (F & _); discriminate]|].
  destruct (isListening st);
    [split; [discriminate|intros (_ & F & _); discriminate]|].
  destruct (error st) as [[|c e]|].
  - split.
    + cbn. destruct (searched st); cbn;
        [destruct (no_products st) as [[|]|]|]; discriminate.
    + intros (_ & _ & [= <-] & NE). now destruct NE.
  - split.
    + intros [= <-]. repeat split. discriminate.
    + intros (_ & _ & [= <-] & _). reflexivity.
  - split.
    + cbn. destruct (searched st); cbn;
        [destruct (no_products st) as [[|]|]|]; discriminate.
    + intros (_ & _ & F & _). discriminate.
Qed.

(** X19: the result of a recognition always replaces the text of the input
    by the transcript.  A blank transcript does nothing else: no request, and
    the results, the sources and the error stay.  Any other transcript starts
    a search for it, and the handler does not look at the loading flag for
    that: the request is added to those in flight. *)
Theorem recognition_result
        (supported : bool) (JSON_parse : jsstring -> Completion JsValue)
        (p p' : Page.t) (transcript : jsstring) :
  Page.step supported JSON_parse p (Page.Result transcript) = Some p' ->
  query (Page.ui p') = transcript /\
  S (Page.recognitions p') = Page.recognitions p /\
  (Spec.blank transcript = true ->
   Page.ui p' = setQuery transcript (Page.ui p) /\
   Page.in_flight p' = Page.in_flight p) /\
  (Spec.blank transcript = false ->
   Page.ui p' = fetch_begin (setQuery transcript (Page.ui p)) /\
   Page.in_flight p'
   = Page.in_flight p ++ [{| searchQuery := transcript |}]).
Proof.
  cbn [Page.step]. destruct (Page.recognitions p) as [|n]; [discriminate|].
  unfold Page.onresult, Page.call_fetchProducts, fetch_request.
  rewrite truthy_trim.
  destruct (Spec.blank transcript); cbn; intros [= <-]; cbn;
    repeat split; discriminate.
Qed.

Lemma recognition_result_witness :
  query (setQuery (js " ") App.initial) = js " ".
Proof.
  apply (recognition_result true (fun _ => Throw)
           {| Page.ui := App.initial; Page.in_flight := [];
              Page.recognitions := 1%nat |}
           {| Page.ui := setQuery (js " ") App.initial; Page.in_flight := [];
              Page.recognitions := 0%nat |}
           (js " ")).
  reflexivity.
Defined.

(** ** The results grid (lines 218-239) *)

Section GridFacts.

Lemma is_string_inv (v : option JsValue) :
  is_string v = true -> exists s, v = Some (JStr s).
Proof.
  destruct v as [[ | | |s| |]|]; try discriminate. intros _. now exists s.
Qed.

Lemma is_product_renders (x : JsValue) :
  is_product x = true -> exists card, render_card x = Normal card.
Proof.
  destruct x as [ | | | | |fields]; try discriminate. cbn [is_product].
  rewrite !andb_true_iff. intros ((((N & D) & P) & _) & _).
  apply is_string_inv in N, D, P.
  destruct N as [n N], D as [d D], P as [pr P].
  unfold render_card, product_field. rewrite N, D, P. cbn. eauto.
Qed.

Lemma render_cards_all (items : list JsValue) :
  (forall x, In x items -> is_product x = true) ->
  exists cards,
    render_cards items = Normal cards /\
    Forall2 (fun x card => render_card x = Normal card) items cards.
Proof.
  induction items as [|x items IH]; intros W.
  - exists []. split; [reflexivity|constructor].
  - destruct (is_product_renders x) as [card C]; [apply W; now left|].
    destruct IH as (cards & R & F); [intros y I; apply W; now right|].
    exists (card :: cards). cbn [render_cards]. rewrite C, R.
    split; [reflexivity|now constructor].
Qed.

Lemma render_cards_null (items : list JsValue) :
  In JNull items -> render_cards items = Throw.
Proof.
  induction items as [|x items IH]; [intros []|].
  intros [->|I]; cbn [render_cards].
  - reflexivity.
  - rewrite (IH I). now destruct (render_card x).
Qed.

End GridFacts.

(** X21: when the products are a non-empty array of records that have the
    five fields as strings, the results grid renders, with one card per
    product, in the order of the products. *)
Theorem well_formed_products_render
        (to_number_positive : JsValue -> bool) (st : State)
        (items : list JsValue) :
  products st = JArr items ->
  items <> [] ->
  (forall x, In x items -> is_product x = true) ->
  exists cards,
    render_results to_number_positive st = Normal (Some cards) /\
    length cards = length items /\
    Forall2 (fun x card => render_card x = Normal card) items cards.
Proof.
  intros P NE W. destruct (render_cards_all items W) as (cards & R & F).
  exists cards. unfold render_results.
  rewrite (grid_test_array _ _ _ P), P, R.
  split; [now destruct items|].
  split; [symmetry; exact (Forall2_length F)|exact F].
Qed.

Lemma well_formed_products_render_witness :
  exists cards,
    render_results (fun _ => false)
      (setProducts
         (JArr [JObj [(js "name", JStr (js "n"));
                      (js "description", JStr (js "d"));
                      (js "price", JStr (js "9"));
                      (js "imageUrl", JStr (js "i"));
                      (js "productUrl", JStr (js "u"))]])
         App.initial)
    = Normal (Some cards) /\
    length cards = 1%nat.
Proof.
  destruct (well_formed_products_render (fun _ => false)
              (setProducts
                 (JArr [JObj [(js "name", JStr (js "n"));
                              (js "description", JStr (js "d"));
                              (js "price", JStr (js "9"));
                              (js "imageUrl", JStr (js "i"));
                              (js "productUrl", JStr (js "u"))]])
                 App.initial)
              [JObj [(js "name", JStr (js "n"));
                     (js "description", JStr (js "d"));
                     (js "price", JStr (js "9"));
                     (js "imageUrl", JStr (js "i"));
                     (js "productUrl", JStr (js "u"))]])
    as (cards & R & L & _).
  - reflexivity.
  - discriminate.
  - intros x [<-|[]]. reflexivity.
  - exists cards. split; assumption.
Defined.

(** X22: when the products are an array with a [null] element, the render
    of the results grid throws, whatever the other elements are. *)
Theorem null_product_throws
        (to_number_positive : JsValue -> bool) (st : State)
        (items : list JsValue) :
  products st = JArr items ->
  In JNull items ->
  render_results to_number_positive st = Throw.
Proof.
  intros P I. unfold render_results.
  rewrite (grid_test_array _ _ _ P), P, (render_cards_null items I).
  destruct items; [destruct I|reflexivity].
Qed.

Lemma null_product_throws_witness :
  render_results (fun _ => false)
    (setProducts (JArr [JStr (js "x"); JNull]) App.initial) = Throw.
Proof.
  apply (null_product_throws (fun _ => false)
           (setProducts (JArr [JStr (js "x"); JNull]) App.initial)
           [JStr (js "x"); JNull]).
  - reflexivity.
  - right. left. reflexivity.
Defined.
